(** * Netify: the movie proxy and the account routes

    A shallow embedding of [routes/movies.js] and [routes/auth.js]:
    the OMDb record normalizer [formatMovie], the batch fetcher
    [fetchMoviesByTitles], the [/search] handler, and the [/register] and
    [/login] handlers, together with the fragment of JavaScript they rely
    on ([parseInt], [parseFloat], string-to-number coercion, truthiness,
    one regular expression). *)

From Stdlib Require Import List String Ascii ZArith NArith Bool Lia.
From Stdlib Require Import DecimalString DecimalPos DecimalN.
Import ListNotations.

Local Open Scope string_scope.

(* ===================================================================== *)
(** ** The JavaScript fragment *)
(* ===================================================================== *)

Module JS.

(** Strings are sequences of code units below 256 (Rocq's [ascii]); the
    [.length] of such a string is [String.length]. *)

(** Numbers.  A finite number is kept as the exact decimal [m * 10^e];
    the rounding to a double that the engine performs afterwards is not
    part of the model, and the two zeros are one value. [parseInt] and
    [Math.ceil] always answer with exponent 0. *)
Inductive jsnum : Type :=
| NaN
| Infinity (negative : bool)
| Dec (m : Z) (e : Z).

(** ToBoolean on numbers: [NaN] and zero are falsy. *)
Definition truthy_num (n : jsnum) : bool :=
  match n with
  | NaN => false
  | Infinity _ => true
  | Dec m _ => negb (m =? 0)%Z
  end.

(** ToBoolean on a property that is either absent ([undefined]) or a
    string: only a non-empty string is truthy. *)
Definition truthy (v : option string) : bool :=
  match v with
  | Some (String _ _) => true
  | _ => false
  end.

(** [v === 'lit'] for a property that is absent or a string. *)
Definition strict_eq (v : option string) (lit : string) : bool :=
  match v with
  | Some s => String.eqb s lit
  | None => false
  end.

(** [a || b] on numbers. *)
Definition or_num (a b : jsnum) : jsnum := if truthy_num a then a else b.

(** ToString of a property that is absent or a string. *)
Definition ToString (v : option string) : string :=
  match v with
  | Some s => s
  | None => "undefined"
  end.

(** *** Characters *)

Definition code (c : ascii) : N := N_of_ascii c.

(** WhiteSpace and LineTerminator code units below 256: TAB, LF, VT, FF,
    CR, SP and NBSP.  This is both [\s] and StrWhiteSpaceChar. *)
Definition is_ws (c : ascii) : bool :=
  let n := code c in
  ((9 <=? n) && (n <=? 13) || (n =? 32) || (n =? 160))%N.

(** The value of [c] as a digit in [radix], if it is one. *)
Definition digit_of (radix : N) (c : ascii) : option N :=
  let n := code c in
  let v :=
    (if (48 <=? n) && (n <=? 57) then Some (n - 48)
     else if (97 <=? n) && (n <=? 122) then Some (n - 87)
     else if (65 <=? n) && (n <=? 90) then Some (n - 55)
     else None)%N in
  match v with
  | Some d => if (d <? radix)%N then Some d else None
  | None => None
  end.

(** *** Lexing helpers *)

Fixpoint skip_ws (s : string) : string :=
  match s with
  | String c r => if is_ws c then skip_ws r else s
  | EmptyString => EmptyString
  end.

Fixpoint all_ws (s : string) : bool :=
  match s with
  | String c r => is_ws c && all_ws r
  | EmptyString => true
  end.

(** The longest run of [radix]-digits at the head of [s], and the rest. *)
Fixpoint read_digits (radix : N) (s : string) : list N * string :=
  match s with
  | String c r =>
      match digit_of radix c with
      | Some d => let (ds, rest) := read_digits radix r in (d :: ds, rest)
      | None => ([], s)
      end
  | EmptyString => ([], EmptyString)
  end.

Definition digits_value (radix : N) (ds : list N) : N :=
  fold_left (fun acc d => acc * radix + d)%N ds 0%N.

(** An optional leading [+] or [-]; [true] means negative. *)
Definition read_sign (s : string) : bool * string :=
  match s with
  | String "-" r => (true, r)
  | String "+" r => (false, r)
  | _ => (false, s)
  end.

Definition apply_sign (negative : bool) (n : N) : Z :=
  if negative then (- Z.of_N n)%Z else Z.of_N n.

(** [prefix p s] is the rest of [s] after [p] when [s] starts with [p]. *)
Fixpoint strip_prefix (p s : string) : option string :=
  match p, s with
  | EmptyString, _ => Some s
  | String a p', String b s' => if Ascii.eqb a b then strip_prefix p' s' else None
  | String _ _, EmptyString => None
  end.

(** *** parseInt(string) with the radix left out *)
Definition parseInt (input : string) : jsnum :=
  let s := skip_ws input in
  let (negative, s) := read_sign s in
  let (radix, s) :=
    match s with
    | String "0" (String "x" r) => (16%N, r)
    | String "0" (String "X" r) => (16%N, r)
    | _ => (10%N, s)
    end in
  let (ds, _) := read_digits radix s in
  match ds with
  | [] => NaN
  | _ => Dec (apply_sign negative (digits_value radix ds)) 0
  end.

(** *** StrDecimalLiteral, longest prefix *)

(** [E] or [e], an optional sign and at least one digit; otherwise no
    exponent is consumed. *)
Definition read_exponent (s : string) : Z * string :=
  match s with
  | String c r =>
      if Ascii.eqb c "e" || Ascii.eqb c "E" then
        let (negative, r') := read_sign r in
        let (ds, rest) := read_digits 10 r' in
        match ds with
        | [] => (0%Z, s)
        | _ => (apply_sign negative (digits_value 10 ds), rest)
        end
      else (0%Z, s)
  | EmptyString => (0%Z, s)
  end.

(** The unsigned part: [Infinity], [digits . digits? exp?],
    [. digits exp?] or [digits exp?]. [None] when no prefix matches. *)
Definition read_unsigned_decimal (s : string) : option (jsnum * string) :=
  match strip_prefix "Infinity" s with
  | Some rest => Some (Infinity false, rest)
  | None =>
      let (ip, s1) := read_digits 10 s in
      let '(fp, s2, dotted) :=
        match s1 with
        | String "." r => let (fp, s2) := read_digits 10 r in (fp, s2, true)
        | _ => ([], s1, false)
        end in
      match ip, fp with
      | [], [] => None
      | _, _ =>
          let (ex, s3) := read_exponent (if dotted then s2 else s1) in
          let m := digits_value 10 (ip ++ fp) in
          Some (Dec (Z.of_N m) (ex - Z.of_nat (List.length fp)), s3)
      end
  end.

Definition negate (n : jsnum) : jsnum :=
  match n with
  | NaN => NaN
  | Infinity b => Infinity (negb b)
  | Dec m e => Dec (- m) e
  end.

Definition read_decimal (s : string) : option (jsnum * string) :=
  let (negative, s') := read_sign s in
  match read_unsigned_decimal s' with
  | Some (n, rest) => Some (if negative then negate n else n, rest)
  | None => None
  end.

(** *** parseFloat(string) *)
Definition parseFloat (input : string) : jsnum :=
  match read_decimal (skip_ws input) with
  | Some (n, _) => n
  | None => NaN
  end.

(** *** ToNumber(string): the whole trimmed string must be a literal *)

Definition read_radix_literal (radix : N) (s : string) : jsnum :=
  let (ds, rest) := read_digits radix s in
  match ds, rest with
  | _ :: _, EmptyString => Dec (Z.of_N (digits_value radix ds)) 0
  | _, _ => NaN
  end.

(** [s] with its trailing white space removed. *)
Fixpoint rtrim (s : string) : string :=
  match s with
  | String c r => if all_ws s then EmptyString else String c (rtrim r)
  | EmptyString => EmptyString
  end.

Definition ToNumber (input : string) : jsnum :=
  let s := rtrim (skip_ws input) in
  match s with
  | EmptyString => Dec 0 0
  | String "0" (String "x" r) | String "0" (String "X" r) => read_radix_literal 16 r
  | String "0" (String "o" r) | String "0" (String "O" r) => read_radix_literal 8 r
  | String "0" (String "b" r) | String "0" (String "B" r) => read_radix_literal 2 r
  | _ =>
      match read_decimal s with
      | Some (n, EmptyString) => n
      | _ => NaN
      end
  end.

(** [a / 10] *)
Definition div10 (n : jsnum) : jsnum :=
  match n with
  | Dec m e => Dec m (e - 1)
  | _ => n
  end.

(** Math.ceil *)
Definition Math_ceil (n : jsnum) : jsnum :=
  match n with
  | Dec m e =>
      if (0 <=? e)%Z then Dec (m * 10 ^ e) 0
      else Dec (- ((- m) / 10 ^ (- e))) 0
  | _ => n
  end.

(** *** str.replace(/,/g, '') *)
Fixpoint remove_commas (s : string) : string :=
  match s with
  | String c r => if Ascii.eqb c "," then remove_commas r else String c (remove_commas r)
  | EmptyString => EmptyString
  end.

(** *** Regular expressions, matched by derivatives *)

Inductive regex : Type :=
| Never
| Empty
| Class (p : ascii -> bool)
| Seq (r1 r2 : regex)
| Alt (r1 r2 : regex)
| Star (r : regex).

Definition Plus (r : regex) : regex := Seq r (Star r).

Fixpoint nullable (r : regex) : bool :=
  match r with
  | Never => false
  | Empty => true
  | Class _ => false
  | Seq r1 r2 => nullable r1 && nullable r2
  | Alt r1 r2 => nullable r1 || nullable r2
  | Star _ => true
  end.

Fixpoint deriv (c : ascii) (r : regex) : regex :=
  match r with
  | Never => Never
  | Empty => Never
  | Class p => if p c then Empty else Never
  | Seq r1 r2 =>
      if nullable r1 then Alt (Seq (deriv c r1) r2) (deriv c r2)
      else Seq (deriv c r1) r2
  | Alt r1 r2 => Alt (deriv c r1) (deriv c r2)
  | Star r1 => Seq (deriv c r1) (Star r1)
  end.

(** [/^r$/.test(s)]: the whole of [s] matches [r]. *)
Fixpoint full_match (r : regex) (s : string) : bool :=
  match s with
  | EmptyString => nullable r
  | String c s' => full_match (deriv c r) s'
  end.

End JS.

(* ===================================================================== *)
(** ** Effects: exceptions and a world *)
(* ===================================================================== *)

(** What a call leaves behind: a value, or a thrown error (its message). *)
Inductive outcome (A : Type) : Type :=
| Returned (a : A)
| Thrown (message : string).
Arguments Returned {A} a.
Arguments Thrown {A} message.

Module Eff.

(** A computation over a world [W]: async functions are run to completion
    in the order they are started; [await] is sequencing. *)
Definition M (W A : Type) : Type := W -> outcome A * W.

Definition ret {W A} (a : A) : M W A := fun w => (Returned a, w).

Definition throw {W A} (message : string) : M W A := fun w => (Thrown message, w).

Definition bind {W A B} (c : M W A) (k : A -> M W B) : M W B :=
  fun w =>
    match c w with
    | (Returned a, w') => k a w'
    | (Thrown e, w') => (Thrown e, w')
    end.

(** [try { c } catch (error) { handler }] *)
Definition try_catch {W A} (c : M W A) (handler : string -> M W A) : M W A :=
  fun w =>
    match c w with
    | (Returned a, w') => (Returned a, w')
    | (Thrown e, w') => handler e w'
    end.

(** Every computation is started, in list order, whatever the others do;
    their outcomes are kept by position. *)
Fixpoint settle_all {W A} (cs : list (M W A)) : W -> list (outcome A) * W :=
  fun w =>
    match cs with
    | [] => ([], w)
    | c :: cs' =>
        let (o, w1) := c w in
        let (os, w2) := settle_all cs' w1 in
        (o :: os, w2)
    end.

(** The values of [os] by position, or the first error among them. *)
Fixpoint collect {A} (os : list (outcome A)) : outcome (list A) :=
  match os with
  | [] => Returned []
  | Thrown e :: _ => Thrown e
  | Returned a :: os' =>
      match collect os' with
      | Returned l => Returned (a :: l)
      | Thrown e => Thrown e
      end
  end.

(** [await Promise.all(cs)]: resolves to the values in the order of [cs],
    not of arrival, and rejects when one of them rejects. *)
Definition promise_all {W A} (cs : list (M W A)) : M W (list A) :=
  fun w => let (os, w') := settle_all cs w in (collect os, w').

End Eff.

Declare Scope eff_scope.
Delimit Scope eff_scope with eff.
Notation "x <- c ;; k" := (Eff.bind c (fun x => k))
  (at level 61, c at next level, right associativity) : eff_scope.

(* ===================================================================== *)
(** ** The response envelope *)
(* ===================================================================== *)

(** The JSON body of every response: [{ success: false, message }] or
    [{ success: true, ...payload }]. *)
Inductive envelope (P : Type) : Type :=
| Failure (message : string)
| Success (p : P).
Arguments Failure {P} message.
Arguments Success {P} p.

(** What [res.status(code).json(body)] sends; [res.json(body)] alone is
    status 200. *)
Record response (P : Type) : Type := mkResponse {
  status : Z;
  payload : envelope P
}.
Arguments mkResponse {P} status payload.
Arguments status {P} r.
Arguments payload {P} r.

Definition success {P} (r : response P) : bool :=
  match payload r with Failure _ => false | Success _ => true end.

Definition send {W P} (code : Z) (b : envelope P) : Eff.M W (response P) :=
  Eff.ret {| status := code; payload := b |}.

(* ===================================================================== *)
(** ** routes/movies.js *)
(* ===================================================================== *)

Module Movies.

Import JS.

(** One entry of the [Search] array of a search response. *)
Record search_hit : Type := mkHit {
  hit_imdbID : option string;
  hit_Title : option string
}.

(** A provider payload.  Every property is absent ([None]) or a string;
    [Search] is [None] when absent or not an array. *)
Record omdb_data : Type := mkData {
  Response : option string;
  Error : option string;
  imdbID : option string;
  Title : option string;
  Plot : option string;
  Poster : option string;
  Year : option string;
  imdbRating : option string;
  imdbVotes : option string;
  Genre : option string;
  Runtime : option string;
  Director : option string;
  Actors : option string;
  Search : option (list search_hit);
  totalResults : option string
}.

(** The object [formatMovie] returns.  For [posterPath], [backdropPath],
    [releaseDate], [rating] and [voteCount], [None] is [null]; for [id],
    [title], [runtime], [director] and [actors], [None] is [undefined]. *)
Record movie : Type := mkMovie {
  id : option string;
  title : option string;
  overview : string;
  posterPath : option string;
  backdropPath : option string;
  releaseDate : option string;
  rating : option jsnum;
  voteCount : option jsnum;
  genre : string;
  runtime : option string;
  director : option string;
  actors : option string
}.

(** [v && v !== 'N/A'] *)
Definition present (v : option string) : bool :=
  truthy v && negb (strict_eq v "N/A").

Definition formatMovie (m : omdb_data) : movie :=
  let rating :=
    if present (imdbRating m) then Some (parseFloat (ToString (imdbRating m)))
    else None in
  let year :=
    if present (Year m) then Year m else None in
  {| id := if truthy (imdbID m) then imdbID m else Title m;
     title := Title m;
     overview := if present (Plot m) then ToString (Plot m)
                 else "No description available.";
     posterPath := if present (Poster m) then Poster m else None;
     backdropPath := if present (Poster m) then Poster m else None;
     releaseDate := year;
     rating := rating;
     voteCount := if truthy (imdbVotes m)
                  then Some (parseInt (remove_commas (ToString (imdbVotes m))))
                  else None;
     genre := if truthy (Genre m) then ToString (Genre m) else "";
     runtime := Runtime m;
     director := Director m;
     actors := Actors m |}.

(** The query parameters of one provider request. [page] is the string
    taken from the request or the number 1. *)
Record params : Type := mkParams {
  p_apikey : option string;
  p_t : option string;
  p_i : option string;
  p_s : option string;
  p_type : option string;
  p_page : option (string + jsnum)
}.

(** How [axios.get] settles: rejected (network, timeout, HTTP status), or
    resolved with a body. [None] is a body whose properties cannot be
    read ([null] or [undefined]); a body that is a string or a number
    reads as a record with every property absent. *)
Inductive axios_result : Type :=
| Rejected (message : string)
| Resolved (data : option omdb_data).

(** The world of the movie routes: the provider requests issued so far,
    oldest first. *)
Definition calls : Type := list params.

(** An element of the array built by the batch fetcher. *)
Inductive slot : Type :=
| SNull
| SUndefined
| SMovie (m : movie).

Definition not_null (s : slot) : bool :=
  match s with SNull => false | _ => true end.

(** The payload of a successful catalog response. *)
Inductive catalog : Type :=
| MovieList (page totalPages totalResults : jsnum) (movies : list slot)
| MovieDetail (m : movie).

(** [req.query] of the search route. *)
Record search_query : Type := mkQuery {
  q_query : option string;
  q_page : option string
}.

Definition MOVIE_LISTS_popular : list string :=
  [ "Inception"; "The Dark Knight"; "Interstellar"; "Avengers Endgame";
    "Avatar"; "Titanic"; "The Matrix"; "Forrest Gump";
    "Pulp Fiction"; "The Shawshank Redemption"; "Fight Club"; "Goodfellas";
    "The Godfather"; "The Lord of the Rings"; "Inception"; "Django Unchained" ].

Definition MOVIE_LISTS_top_rated : list string :=
  [ "The Shawshank Redemption"; "The Godfather"; "The Dark Knight"; "12 Angry Men";
    "Schindler's List"; "The Lord of the Rings"; "Pulp Fiction"; "Inception";
    "Fight Club"; "Forrest Gump"; "The Matrix"; "Goodfellas";
    "One Flew Over the Cuckoo's Nest"; "Seven"; "Se7en"; "The Silence of the Lambs" ].

Definition MOVIE_LISTS_upcoming : list string :=
  [ "Dune Part Two"; "Deadpool 3"; "Joker 2"; "Gladiator 2";
    "Avatar 3"; "Mission Impossible"; "Fast X"; "The Marvels";
    "Aquaman 2"; "Wonka"; "The Hunger Games"; "Napoleon";
    "Wish"; "Migration"; "Anyone But You"; "The Color Purple" ].

Section Provider.

(** [process.env.OMDB_API_KEY] *)
Variable OMDB_API_KEY : option string.

(** The provider and the network: how the request [p] settles, given the
    requests issued before it. *)
Variable axios_get : calls -> params -> axios_result.

Local Open Scope eff_scope.

Definition request (p : params) : Eff.M calls axios_result :=
  fun log => (Returned (axios_get log p), (log ++ [p])%list).

(** [{ apikey: OMDB_API_KEY, ...params }] *)
Definition with_key (p : params) : params :=
  {| p_apikey := OMDB_API_KEY; p_t := p_t p; p_i := p_i p; p_s := p_s p;
     p_type := p_type p; p_page := p_page p |}.

(** The [catch] of the source logs the error and throws it again. *)
Definition fetchFromOMDB (p : params) : Eff.M calls omdb_data :=
  r <- request (with_key p) ;;
  match r with
  | Rejected e => Eff.throw e
  | Resolved None => Eff.throw "Cannot read properties of undefined"
  | Resolved (Some data) =>
      if strict_eq (Response data) "False"
      then Eff.throw (if truthy (Error data) then ToString (Error data)
                      else "OMDb API Error")
      else Eff.ret data
  end.

Definition title_params (t : string) : params :=
  {| p_apikey := None; p_t := Some t; p_i := None; p_s := None;
     p_type := Some "movie"; p_page := None |}.

Definition id_params (i : option string) : params :=
  {| p_apikey := None; p_t := None; p_i := i; p_s := None;
     p_type := None; p_page := None |}.

Definition search_params (q : string) (page : option string) : params :=
  {| p_apikey := None; p_t := None; p_i := None; p_s := Some q;
     p_type := Some "movie";
     p_page := Some (if truthy page then inl (ToString page) else inr (Dec 1 0)) |}.

(** The callback mapped over the titles. When the payload has no truthy
    [Title] the function body ends without a [return]. *)
Definition title_callback (t : string) : Eff.M calls slot :=
  Eff.try_catch
    (data <- fetchFromOMDB (title_params t) ;;
     if truthy (Title data) then Eff.ret (SMovie (formatMovie data))
     else Eff.ret SUndefined)
    (fun _ => Eff.ret SNull).

Definition fetchMoviesByTitles (titles : list string) : Eff.M calls (list slot) :=
  results <- Eff.promise_all (map title_callback titles) ;;
  Eff.ret (filter not_null results).

(** The callback mapped over the search hits. *)
Definition hit_callback (item : search_hit) : Eff.M calls slot :=
  Eff.try_catch
    (details <- fetchFromOMDB (id_params (hit_imdbID item)) ;;
     Eff.ret (SMovie (formatMovie details)))
    (fun _ => Eff.ret SNull).

(** The detail stage of the search route, for the [Search] array of the
    search response. *)
Definition search_details (hits : list search_hit) : Eff.M calls (list slot) :=
  let limitedResults := firstn 8 hits in
  results <- Eff.promise_all (map hit_callback limitedResults) ;;
  Eff.ret (filter not_null results).

Definition key_missing : bool :=
  negb (truthy OMDB_API_KEY) || strict_eq OMDB_API_KEY "your-omdb-api-key".

(** [(searchData.totalResults || 0) / 10] *)
Definition total_over_10 (searchData : omdb_data) : jsnum :=
  div10 (if truthy (totalResults searchData)
         then ToNumber (ToString (totalResults searchData))
         else Dec 0 0).

(** GET /search *)
Definition search (q : search_query) : Eff.M calls (response catalog) :=
  Eff.try_catch
    (if negb (truthy (q_query q)) then
       send 400 (Failure "Search query is required")
     else if key_missing then
       send 500 (Failure "OMDb API key not configured")
     else
       searchData <- fetchFromOMDB (search_params (ToString (q_query q)) (q_page q)) ;;
       movies <- match Search searchData with
                 | Some hits => search_details hits
                 | None => Eff.ret []
                 end ;;
       send 200 (Success (MovieList
                   (or_num (parseInt (ToString (q_page q))) (Dec 1 0))
                   (Math_ceil (total_over_10 searchData))
                   (or_num (parseInt (ToString (totalResults searchData))) (Dec 0 0))
                   movies)))
    (fun _ => send 500 (Failure "Failed to search movies")).

(** GET /popular *)
Definition popular : Eff.M calls (response catalog) :=
  Eff.try_catch
    (if key_missing then
       send 500 (Failure "OMDb API key not configured")
     else
       movies <- fetchMoviesByTitles MOVIE_LISTS_popular ;;
       send 200 (Success (MovieList (Dec 1 0) (Dec 1 0)
                   (Dec (Z.of_nat (List.length movies)) 0) movies)))
    (fun _ => send 500 (Failure "Failed to fetch popular movies")).

(** GET /now_playing *)
Definition now_playing : Eff.M calls (response catalog) :=
  Eff.try_catch
    (if key_missing then
       send 500 (Failure "OMDb API key not configured")
     else
       movies <- fetchMoviesByTitles (firstn 8 MOVIE_LISTS_popular) ;;
       send 200 (Success (MovieList (Dec 1 0) (Dec 1 0)
                   (Dec (Z.of_nat (List.length movies)) 0) movies)))
    (fun _ => send 500 (Failure "Failed to fetch now playing movies")).

(** GET /:id *)
Definition movie_by_id (i : string) : Eff.M calls (response catalog) :=
  Eff.try_catch
    (if key_missing then
       send 500 (Failure "OMDb API key not configured")
     else
       data <- fetchFromOMDB (id_params (Some i)) ;;
       send 200 (Success (MovieDetail (formatMovie data))))
    (fun _ => send 500 (Failure "Failed to fetch movie details")).

(** GET /top_rated *)
Definition top_rated : Eff.M calls (response catalog) :=
  Eff.try_catch
    (if key_missing then
       send 500 (Failure "OMDb API key not configured")
     else
       movies <- fetchMoviesByTitles MOVIE_LISTS_top_rated ;;
       send 200 (Success (MovieList (Dec 1 0) (Dec 1 0)
                   (Dec (Z.of_nat (List.length movies)) 0) movies)))
    (fun _ => send 500 (Failure "Failed to fetch top rated movies")).

(** GET /upcoming *)
Definition upcoming : Eff.M calls (response catalog) :=
  Eff.try_catch
    (if key_missing then
       send 500 (Failure "OMDb API key not configured")
     else
       movies <- fetchMoviesByTitles MOVIE_LISTS_upcoming ;;
       send 200 (Success (MovieList (Dec 1 0) (Dec 1 0)
                   (Dec (Z.of_nat (List.length movies)) 0) movies)))
    (fun _ => send 500 (Failure "Failed to fetch upcoming movies")).

End Provider.

End Movies.

(* ===================================================================== *)
(** ** routes/auth.js *)
(* ===================================================================== *)

Module Auth.

Import JS.

(** A row of the [users] table, as the routes read it. *)
Record user_row : Type := mkUser {
  u_id : Z;
  u_username : string;
  u_email : string;
  u_password : string;
  u_phone : option string
}.

(** The statements the routes hand to [pool.execute]. *)
Inductive statement : Type :=
| SelectIdByEmail (email : string)
| SelectUserByEmail (email : string)
| InsertUser (username email password : string) (phone : option string).

(** The store: the table, the next AUTO_INCREMENT value, whether the
    server can be reached, and the statements issued so far, oldest
    first. *)
Record db : Type := mkDb {
  rows : list user_row;
  next_id : Z;
  online : bool;
  issued : list statement
}.

Definition issue (st : statement) (d : db) : db :=
  {| rows := rows d; next_id := next_id d; online := online d;
     issued := (issued d ++ [st])%list |}.

(** [WHERE email = ?], the strings compared as they are. *)
Definition by_email (email : string) (d : db) : list user_row :=
  filter (fun u => String.eqb (u_email u) email) (rows d).

Definition select_id_by_email (email : string) : Eff.M db (list user_row) :=
  fun d =>
    let d' := issue (SelectIdByEmail email) d in
    if online d then (Returned (by_email email d), d')
    else (Thrown "connect ECONNREFUSED", d').

Definition select_user_by_email (email : string) : Eff.M db (list user_row) :=
  fun d =>
    let d' := issue (SelectUserByEmail email) d in
    if online d then (Returned (by_email email d), d')
    else (Thrown "connect ECONNREFUSED", d').

(** [INSERT INTO users ...]: the UNIQUE column refuses a second row with
    the same email; otherwise the row gets the next id, which is the
    [insertId] of the result. *)
Definition insert_user (username email password : string) (phone : option string)
  : Eff.M db Z :=
  fun d =>
    let d' := issue (InsertUser username email password phone) d in
    if negb (online d) then (Thrown "connect ECONNREFUSED", d')
    else
      match by_email email d with
      | _ :: _ => (Thrown "Duplicate entry", d')
      | [] =>
          (Returned (next_id d),
           {| rows := (rows d ++ [ {| u_id := next_id d; u_username := username;
                                      u_email := email; u_password := password;
                                      u_phone := phone |} ])%list;
              next_id := next_id d + 1;
              online := online d;
              issued := issued d' |})
      end.

(** [req.body] of the two routes: each property is absent or a string. *)
Record register_body : Type := mkRegister {
  r_username : option string;
  r_email : option string;
  r_password : option string;
  r_phone : option string
}.

Record login_body : Type := mkLogin {
  l_email : option string;
  l_password : option string
}.

(** The user object of a login response: the row without its password. *)
Record public_user : Type := mkPublic {
  pu_id : Z;
  pu_username : string;
  pu_email : string;
  pu_phone : option string
}.

(** The payload of a successful account response. *)
Inductive account : Type :=
| Registered (message : string) (userId : Z)
| LoggedIn (message : string) (user : public_user).

Definition message (r : response account) : string :=
  match payload r with
  | Failure m => m
  | Success (Registered m _) => m
  | Success (LoggedIn m _) => m
  end.

Definition SALT_ROUNDS : Z := 10.

(** [[^\s@]] *)
Definition not_space_at (c : ascii) : bool :=
  negb (is_ws c) && negb (Ascii.eqb c "@").

(** [/^[^\s@]+@[^\s@]+\.[^\s@]+$/] *)
Definition emailRegex : regex :=
  Seq (Plus (Class not_space_at))
    (Seq (Class (Ascii.eqb "@"))
       (Seq (Plus (Class not_space_at))
          (Seq (Class (Ascii.eqb "."))
             (Plus (Class not_space_at))))).

Definition emailRegex_test (email : string) : bool := full_match emailRegex email.

Section Bcrypt.

(** [bcrypt.hash(password, rounds)] and [bcrypt.compare(password, hash)]
    of bcryptjs. *)
Variable bcrypt_hash : string -> Z -> string.
Variable bcrypt_compare : string -> string -> bool.

Local Open Scope eff_scope.

(** POST /register *)
Definition register (b : register_body) : Eff.M db (response account) :=
  Eff.try_catch
    (if negb (truthy (r_username b)) || negb (truthy (r_email b))
        || negb (truthy (r_password b)) then
       send 400 (Failure "Username, email, and password are required")
     else if negb (emailRegex_test (ToString (r_email b))) then
       send 400 (Failure "Please provide a valid email address")
     else if (String.length (ToString (r_password b)) <? 6)%nat then
       send 400 (Failure "Password must be at least 6 characters long")
     else
       existingUsers <- select_id_by_email (ToString (r_email b)) ;;
       if (0 <? List.length existingUsers)%nat then
         send 409 (Failure "Email already registered")
       else
         let hashedPassword := bcrypt_hash (ToString (r_password b)) SALT_ROUNDS in
         insertId <- insert_user (ToString (r_username b)) (ToString (r_email b))
                       hashedPassword
                       (if truthy (r_phone b) then r_phone b else None) ;;
         send 201 (Success (Registered "User registered successfully" insertId)))
    (fun _ => send 500 (Failure "Internal server error during registration")).

Definition without_password (u : user_row) : public_user :=
  {| pu_id := u_id u; pu_username := u_username u; pu_email := u_email u;
     pu_phone := u_phone u |}.

(** POST /login *)
Definition login (b : login_body) : Eff.M db (response account) :=
  Eff.try_catch
    (if negb (truthy (l_email b)) || negb (truthy (l_password b)) then
       send 400 (Failure "Email and password are required")
     else
       users <- select_user_by_email (ToString (l_email b)) ;;
       match users with
       | [] => send 401 (Failure "Invalid email or password")
       | user :: _ =>
           let isPasswordValid :=
             bcrypt_compare (ToString (l_password b)) (u_password user) in
           if negb isPasswordValid then
             send 401 (Failure "Invalid email or password")
           else
             send 200 (Success (LoggedIn "Login successful" (without_password user)))
       end)
    (fun _ => send 500 (Failure "Internal server error during login")).

End Bcrypt.

End Auth.

(* ===================================================================== *)
(** ** The login route on any JSON body *)
(* ===================================================================== *)

Module AuthJson.

Import JS Auth.

(** A value that [express.json] can hand to a route. *)
#[warnings="-register-all"]
Inductive json : Type :=
| JNull
| JBool (b : bool)
| JNum (n : jsnum)
| JStr (s : string)
| JArr (items : list json)
| JObj (fields : list (string * json)).

(** ToBoolean; [None] is a property the body does not have. *)
Definition truthy_json (v : option json) : bool :=
  match v with
  | None => false
  | Some JNull => false
  | Some (JBool b) => b
  | Some (JNum n) => truthy_num n
  | Some (JStr s) => truthy (Some s)
  | Some (JArr _) => true
  | Some (JObj _) => true
  end.

Definition typeof (v : json) : string :=
  match v with
  | JNull => "object"
  | JBool _ => "boolean"
  | JNum _ => "number"
  | JStr _ => "string"
  | JArr _ => "object"
  | JObj _ => "object"
  end.

(** [req.body] of the login route, whatever JSON it carries. *)
Record login_request : Type := mkLoginRequest {
  j_email : option json;
  j_password : option json
}.

(** A body whose two fields are strings or absent. *)
Definition of_strings (b : login_body) : login_request :=
  {| j_email := option_map JStr (l_email b);
     j_password := option_map JStr (l_password b) |}.

Section Bcrypt.

Variable bcrypt_compare : string -> string -> bool.

(** What the lookup finds when its parameter is not a string: that is
    the business of the driver and of the server. *)
Variable select_other : json -> Eff.M db (list user_row).

Local Open Scope eff_scope.

(** [pool.execute('SELECT ... WHERE email = ?', [email])] *)
Definition select_user_by (email : json) : Eff.M db (list user_row) :=
  match email with
  | JStr s => select_user_by_email s
  | _ => select_other email
  end.

(** [bcrypt.compare(password, hash)] of bcryptjs: it rejects unless both
    arguments are strings; the hash read from the table is one. *)
Definition compare (password : json) (hash : string) : Eff.M db bool :=
  match password with
  | JStr s => Eff.ret (bcrypt_compare s hash)
  | _ => Eff.throw ("Illegal arguments: " ++ typeof password ++ ", string")
  end.

(** POST /login *)
Definition login_json (b : login_request) : Eff.M db (response account) :=
  Eff.try_catch
    (if negb (truthy_json (j_email b)) || negb (truthy_json (j_password b)) then
       send 400 (Failure "Email and password are required")
     else
       match j_email b, j_password b with
       | Some email, Some password =>
           users <- select_user_by email ;;
           match users with
           | [] => send 401 (Failure "Invalid email or password")
           | user :: _ =>
               isPasswordValid <- compare password (u_password user) ;;
               if negb isPasswordValid then
                 send 401 (Failure "Invalid email or password")
               else
                 send 200 (Success (LoggedIn "Login successful"
                                      (without_password user)))
           end
       | _, _ => send 400 (Failure "Email and password are required")
       end)
    (fun _ => send 500 (Failure "Internal server error during login")).

End Bcrypt.

End AuthJson.

(* ===================================================================== *)
(** ** The browser client: form validation and the health retry *)
(* ===================================================================== *)

Module Client.

Import JS.

(** [String.prototype.trim] *)
Definition trim (s : string) : string := rtrim (skip_ws s).

(** [/^[^\s@]+@[^\s@]+\.[^\s@]+$/], the copy of the client. *)
Definition emailRegex : regex :=
  Seq (Plus (Class (fun c => negb (is_ws c) && negb (Ascii.eqb c "@"))))
    (Seq (Class (Ascii.eqb "@"))
       (Seq (Plus (Class (fun c => negb (is_ws c) && negb (Ascii.eqb c "@"))))
          (Seq (Class (Ascii.eqb "."))
             (Plus (Class (fun c => negb (is_ws c) && negb (Ascii.eqb c "@"))))))).

Definition validateEmail (email : string) : bool := full_match emailRegex email.

(** The [.value] of the inputs of the signup form. *)
Record signup_form : Type := mkSignup {
  f_username : string;
  f_email : string;
  f_password : string;
  f_phone : string
}.

(** The [.value] of the inputs of the login form. *)
Record login_form : Type := mkLoginForm {
  g_email : string;
  g_password : string
}.

(** What a submit handler decides before it touches the network: an
    error message to show, or the JSON body to post. *)
Inductive decision (B : Type) : Type :=
| ShowError (message : string)
| Post (body : B).
Arguments ShowError {B} message.
Arguments Post {B} body.

(** The validation of the submit handler of [initSignupForm]; the body
    is what [window.API.auth.register] serializes. *)
Definition signup_submit (f : signup_form) : decision Auth.register_body :=
  let username := trim (f_username f) in
  let email := trim (f_email f) in
  let password := f_password f in
  let phone := trim (f_phone f) in
  if (String.length username <? 3)%nat then
    ShowError "Username must be at least 3 characters"
  else if negb (validateEmail email) then
    ShowError "Please enter a valid email address"
  else if (String.length password <? 6)%nat then
    ShowError "Password must be at least 6 characters"
  else
    Post {| Auth.r_username := Some username; Auth.r_email := Some email;
            Auth.r_password := Some password; Auth.r_phone := Some phone |}.

(** The validation of the submit handler of [initLoginForm]. *)
Definition login_submit (f : login_form) : decision Auth.login_body :=
  let email := trim (g_email f) in
  let password := g_password f in
  if negb (validateEmail email) then
    ShowError "Please enter a valid email address"
  else if (String.length password <? 6)%nat then
    ShowError "Password must be at least 6 characters"
  else
    Post {| Auth.l_email := Some email; Auth.l_password := Some password |}.

(** The retry loop of [initApp]. [checkHealth k] is what the [k]-th call
    of [window.API.checkHealth] resolves to; the state is the flag, the
    number of checks made and the number of one-second waits. *)
Record health_state : Type := mkHealth {
  isHealthy : bool;
  checks : nat;
  waits : nat
}.

Fixpoint health_loop (checkHealth : nat -> bool) (retries : nat)
    (st : health_state) : health_state :=
  match retries with
  | O => st
  | S retries' =>
      if isHealthy st then st
      else
        let healthy := checkHealth (checks st) in
        health_loop checkHealth retries'
          {| isHealthy := healthy;
             checks := S (checks st);
             waits := if negb healthy && (1 <? retries)%nat
                      then S (waits st) else waits st |}
  end.

Definition initApp_health (checkHealth : nat -> bool) : health_state :=
  health_loop checkHealth 3 {| isHealthy := false; checks := 0; waits := 0 |}.

(** [haystack.includes(needle)] *)
Fixpoint includes (needle haystack : string) : bool :=
  String.prefix needle haystack
  || match haystack with
     | String _ rest => includes needle rest
     | EmptyString => false
     end.

Definition BACKEND_URL : string := "http://localhost:5000".

Definition newline : string := String (ascii_of_nat 10) "".

(** What becomes of the [fetch] of [apiRequest]: the timeout aborts it,
    the network fails it, or a response arrives, with its content type
    header and the JSON the server sent. *)
Inductive fetch_outcome (P : Type) : Type :=
| Aborted
| FailedToFetch
| Responded (contentType : option string) (r : response P).
Arguments Aborted {P}.
Arguments FailedToFetch {P}.
Arguments Responded {P} contentType r.

(** [data.message] of a body; [message_of] reads it off a success. *)
Definition data_message {P} (message_of : P -> option string)
    (data : envelope P) : option string :=
  match data with
  | Failure m => Some m
  | Success p => message_of p
  end.

(** [response.ok] *)
Definition ok {P} (r : response P) : bool :=
  (200 <=? status r)%Z && (status r <=? 299)%Z.

(** The [catch] of [apiRequest] for an error that is not an abort. *)
Definition rethrow {A} (message : string) : outcome A :=
  if String.eqb message "Failed to fetch" then
    Thrown ("Cannot connect to server at " ++ BACKEND_URL
            ++ ". Please check:" ++ newline ++ "1. Backend is running"
            ++ newline ++ "2. BACKEND_URL is correct in api.js"
            ++ newline ++ "3. CORS is configured properly")
  else Thrown message.

(** [apiRequest], from the outcome of its [fetch] on. *)
Definition apiRequest {P} (message_of : P -> option string)
    (o : fetch_outcome P) : outcome (envelope P) :=
  match o with
  | Aborted =>
      Thrown "Request timed out. The server may be starting up (Render free tier takes 30-60s to wake up). Please try again."
  | FailedToFetch => rethrow "Failed to fetch"
  | Responded contentType r =>
      if negb (truthy contentType)
         || negb (includes "application/json" (ToString contentType)) then
        rethrow "Server returned non-JSON response. Is the backend running?"
      else if negb (ok r) then
        rethrow (if truthy (data_message message_of (payload r))
                 then ToString (data_message message_of (payload r))
                 else "HTTP error! status: "
                      ++ NilZero.string_of_int (Z.to_int (status r)))
      else Returned (payload r)
  end.

(** [data.message] of the successes of the account routes and of the
    catalog routes. *)
Definition account_message (p : Auth.account) : option string :=
  match p with
  | Auth.Registered m _ => Some m
  | Auth.LoggedIn m _ => Some m
  end.

Definition catalog_message (p : Movies.catalog) : option string := None.

End Client.

(* ===================================================================== *)
(** ** What [res.json] puts on the wire *)
(* ===================================================================== *)

Module Wire.

Import JS Movies.











End Wire.

(* ===================================================================== *)
(** ** Vocabulary of the statements *)
(* ===================================================================== *)

Module Spec.

Import JS.

(** The sentinel the provider uses for a field it has no value for. *)
Definition sentinel : string := "N/A".

(** A provider field that is absent or carries the sentinel. *)
Definition unavailable (v : option string) : Prop :=
  v = None \/ v = Some sentinel.

(** No string field of a normalized movie is the sentinel. The numeric
    fields [rating] and [voteCount] hold a number or null, never a
    string. *)
Definition sentinel_free (m : Movies.movie) : Prop :=
  Movies.id m <> Some sentinel /\
  Movies.title m <> Some sentinel /\
  Movies.overview m <> sentinel /\
  Movies.posterPath m <> Some sentinel /\
  Movies.backdropPath m <> Some sentinel /\
  Movies.releaseDate m <> Some sentinel /\
  Movies.genre m <> sentinel /\
  Movies.runtime m <> Some sentinel /\
  Movies.director m <> Some sentinel /\
  Movies.actors m <> Some sentinel.

(** A count written in decimal, as the provider reports [totalResults]. *)
Definition decimal (n : N) : string := NilZero.string_of_uint (N.to_uint n).

(** The number of pages of size 10 needed for [n] results. *)
Definition pages_of_10 (n : N) : Z := (Z.of_N n + 9) / 10.

(** The digits of a decimal numeral, most significant first. *)
Fixpoint uint_digits (d : Decimal.uint) : list N :=
  match d with
  | Decimal.Nil => []
  | Decimal.D0 d => 0%N :: uint_digits d
  | Decimal.D1 d => 1%N :: uint_digits d
  | Decimal.D2 d => 2%N :: uint_digits d
  | Decimal.D3 d => 3%N :: uint_digits d
  | Decimal.D4 d => 4%N :: uint_digits d
  | Decimal.D5 d => 5%N :: uint_digits d
  | Decimal.D6 d => 6%N :: uint_digits d
  | Decimal.D7 d => 7%N :: uint_digits d
  | Decimal.D8 d => 8%N :: uint_digits d
  | Decimal.D9 d => 9%N :: uint_digits d
  end.

(** The values, in order, of the calls that returned. *)
Fixpoint returned {A} (os : list (outcome A)) : list A :=
  match os with
  | [] => []
  | Returned a :: os' => a :: returned os'
  | Thrown _ :: os' => returned os'
  end.

(** The movies, in order, among the entries of a batch result. *)
Fixpoint movies_of (l : list Movies.slot) : list Movies.movie :=
  match l with
  | [] => []
  | Movies.SMovie m :: l' => m :: movies_of l'
  | _ :: l' => movies_of l'
  end.

(** A payload with a recognizable title. *)
Definition has_title (d : Movies.omdb_data) : bool := truthy (Movies.Title d).

(** How the provider calls for the keys [ps] settle, one by one, when
    they are issued in order after [log]. *)
Definition fetch_outcomes (key : option string)
    (axios_get : Movies.calls -> Movies.params -> Movies.axios_result)
    (ps : list Movies.params) (log : Movies.calls)
  : list (outcome Movies.omdb_data) :=
  fst (Eff.settle_all (map (Movies.fetchFromOMDB key axios_get) ps) log).

(** The array entry the title callback makes of a settled call. *)
Definition title_slot (o : outcome Movies.omdb_data) : Movies.slot :=
  match o with
  | Returned d =>
      if has_title d then Movies.SMovie (Movies.formatMovie d)
      else Movies.SUndefined
  | Thrown _ => Movies.SNull
  end.

(** The array entry the search-hit callback makes of a settled call. *)
Definition hit_slot (o : outcome Movies.omdb_data) : Movies.slot :=
  match o with
  | Returned d => Movies.SMovie (Movies.formatMovie d)
  | Thrown _ => Movies.SNull
  end.

(** The [Search] array of a search response, empty when there is none. *)
Definition hits_of (d : Movies.omdb_data) : list Movies.search_hit :=
  match Movies.Search d with
  | Some hits => hits
  | None => []
  end.

(** A request field that is missing: absent, or the empty string. *)
Definition missing (v : option string) : Prop := v = None \/ v = Some "".

(** A request field that is given: a non-empty string. *)
Definition provided (v : option string) : Prop :=
  exists s, v = Some s /\ s <> "".

(** A registration that one of the local checks refuses. *)
Definition fails_validation (b : Auth.register_body) : Prop :=
  missing (Auth.r_username b) \/
  missing (Auth.r_email b) \/
  missing (Auth.r_password b) \/
  (exists e, Auth.r_email b = Some e /\ Auth.emailRegex_test e = false) \/
  (exists p, Auth.r_password b = Some p /\ (String.length p < 6)%nat).

(** A registration that passes all the local checks. *)
Definition passes_validation (b : Auth.register_body) : Prop :=
  exists u e p,
    Auth.r_username b = Some u /\ u <> "" /\
    Auth.r_email b = Some e /\ e <> "" /\ Auth.emailRegex_test e = true /\
    Auth.r_password b = Some p /\ (6 <= String.length p)%nat.

End Spec.

(* ===================================================================== *)
(** ** Concrete records, providers and stores *)
(* ===================================================================== *)

Module Samples.

Import JS Movies.

(** A title the provider knows little about: most fields are the
    sentinel. *)
Definition obscure_film : omdb_data :=
  {| Response := Some "True"; Error := None;
     imdbID := Some "tt0000001"; Title := Some "Carmencita";
     Plot := Some "N/A"; Poster := Some "N/A"; Year := Some "1894";
     imdbRating := Some "N/A"; imdbVotes := Some "N/A";
     Genre := Some "N/A"; Runtime := Some "N/A"; Director := Some "N/A";
     Actors := Some "N/A"; Search := None; totalResults := None |}.

(** A record whose rating is not a decimal. *)
Definition garbled_rating : omdb_data :=
  {| Response := Some "True"; Error := None;
     imdbID := Some "tt0000002"; Title := Some "Example";
     Plot := None; Poster := None; Year := None;
     imdbRating := Some "unrated"; imdbVotes := Some "1,234";
     Genre := None; Runtime := None; Director := None;
     Actors := None; Search := None; totalResults := None |}.

(** A full record. *)
Definition inception : omdb_data :=
  {| Response := Some "True"; Error := None;
     imdbID := Some "tt1375666"; Title := Some "Inception";
     Plot := Some "A thief who steals corporate secrets.";
     Poster := Some "https://img.example/inception.jpg"; Year := Some "2010";
     imdbRating := Some "8.8"; imdbVotes := Some "2,345,678";
     Genre := Some "Action, Adventure, Sci-Fi"; Runtime := Some "148 min";
     Director := Some "Christopher Nolan";
     Actors := Some "Leonardo DiCaprio"; Search := None; totalResults := None |}.

(** A successful payload that has no title. *)
Definition untitled : omdb_data :=
  {| Response := Some "True"; Error := None; imdbID := None; Title := None;
     Plot := None; Poster := None; Year := None; imdbRating := None;
     imdbVotes := None; Genre := None; Runtime := None; Director := None;
     Actors := None; Search := None; totalResults := None |}.

Definition titled (t : string) : omdb_data :=
  {| Response := Some "True"; Error := None; imdbID := None; Title := Some t;
     Plot := None; Poster := None; Year := None; imdbRating := None;
     imdbVotes := None; Genre := None; Runtime := None; Director := None;
     Actors := None; Search := None; totalResults := None |}.

Definition hit (i : string) : search_hit :=
  {| hit_imdbID := Some i; hit_Title := Some i |}.

Definition ten_hits : list search_hit :=
  map hit ["tt01"; "tt02"; "tt03"; "tt04"; "tt05";
           "tt06"; "tt07"; "tt08"; "tt09"; "tt10"].

(** The first page of a search with 23 results. *)
Definition search_page : omdb_data :=
  {| Response := Some "True"; Error := None; imdbID := None; Title := None;
     Plot := None; Poster := None; Year := None; imdbRating := None;
     imdbVotes := None; Genre := None; Runtime := None; Director := None;
     Actors := None; Search := Some ten_hits; totalResults := Some "23" |}.

(** A provider that answers the title B and every id lookup with an
    untitled payload, every other title with a titled one, and a text
    search with [search_page]. *)
Definition provider (log : calls) (p : params) : axios_result :=
  match p_t p, p_s p with
  | Some "B", _ => Resolved (Some untitled)
  | Some t, _ => Resolved (Some (titled t))
  | None, Some _ => Resolved (Some search_page)
  | None, None => Resolved (Some untitled)
  end.

Definition some_key : option string := Some "k3y".

(** A stand-in for bcrypt. *)
Definition toy_hash (password : string) (rounds : Z) : string :=
  "$2a$10$" ++ password.

Definition toy_compare (password hash : string) : bool :=
  String.eqb ("$2a$10$" ++ password) hash.

Definition alice : Auth.user_row :=
  {| Auth.u_id := 1; Auth.u_username := "alice";
     Auth.u_email := "alice@example.com";
     Auth.u_password := "$2a$10$wonderland"; Auth.u_phone := None |}.

Definition store : Auth.db :=
  {| Auth.rows := [alice]; Auth.next_id := 2; Auth.online := true;
     Auth.issued := [] |}.

Definition unreachable_store : Auth.db :=
  {| Auth.rows := [alice]; Auth.next_id := 2; Auth.online := false;
     Auth.issued := [] |}.

(** A registration with a fresh email, one with the email of a row, and
    one with a password of five characters. *)
Definition bob_request : Auth.register_body :=
  {| Auth.r_username := Some "bob"; Auth.r_email := Some "bob@example.com";
     Auth.r_password := Some "hunter22"; Auth.r_phone := Some "555-0100" |}.


Definition short_password : Auth.register_body :=
  {| Auth.r_username := Some "bob"; Auth.r_email := Some "alice@example.com";
     Auth.r_password := Some "abc12"; Auth.r_phone := None |}.

(** A login for an email without a row, and one for a row with the
    wrong password. *)
Definition unknown_login : Auth.login_body :=
  {| Auth.l_email := Some "nobody@example.com"; Auth.l_password := Some "wonderland" |}.

Definition wrong_password_login : Auth.login_body :=
  {| Auth.l_email := Some "alice@example.com"; Auth.l_password := Some "looking-glass" |}.

End Samples.

(* ===================================================================== *)
(** ** Vocabulary of the further statements *)
(* ===================================================================== *)

Module Props.

Import JS.

(** The four routes that serve a fixed list of titles. *)
Inductive list_name : Type := Popular | TopRated | Upcoming | NowPlaying.

Definition titles_of (n : list_name) : list string :=
  match n with
  | Popular => Movies.MOVIE_LISTS_popular
  | TopRated => Movies.MOVIE_LISTS_top_rated
  | Upcoming => Movies.MOVIE_LISTS_upcoming
  | NowPlaying => firstn 8 Movies.MOVIE_LISTS_popular
  end.

Definition list_route (key : option string)
    (axios_get : Movies.calls -> Movies.params -> Movies.axios_result)
    (n : list_name) : Eff.M Movies.calls (response Movies.catalog) :=
  match n with
  | Popular => Movies.popular key axios_get
  | TopRated => Movies.top_rated key axios_get
  | Upcoming => Movies.upcoming key axios_get
  | NowPlaying => Movies.now_playing key axios_get
  end.

(** A request to the movie router. *)
Inductive catalog_request : Type :=
| GetList (n : list_name)
| GetSearch (q : Movies.search_query)
| GetById (i : string).

Definition catalog_route (key : option string)
    (axios_get : Movies.calls -> Movies.params -> Movies.axios_result)
    (r : catalog_request) : Eff.M Movies.calls (response Movies.catalog) :=
  match r with
  | GetList n => list_route key axios_get n
  | GetSearch q => Movies.search key axios_get q
  | GetById i => Movies.movie_by_id key axios_get i
  end.

(** The messages a catalog route can send with a failure. *)
Definition catalog_messages : list string :=
  [ "OMDb API key not configured"; "Search query is required";
    "Failed to search movies"; "Failed to fetch movie details";
    "Failed to fetch popular movies"; "Failed to fetch top rated movies";
    "Failed to fetch upcoming movies"; "Failed to fetch now playing movies" ].

(** The key is left out, empty, or still the placeholder. *)
Definition unconfigured (key : option string) : Prop :=
  key = None \/ key = Some "" \/ key = Some "your-omdb-api-key".

(** A provider whose answer to a request does not depend on the requests
    made before it. *)
Definition history_free
    (axios_get : Movies.calls -> Movies.params -> Movies.axios_result) : Prop :=
  forall log p, axios_get log p = axios_get [] p.

(** A provider that is down: every request is rejected. *)
Definition always_rejects
    (axios_get : Movies.calls -> Movies.params -> Movies.axios_result) : Prop :=
  forall log p, exists e, axios_get log p = Movies.Rejected e.

Definition is_movie (s : Movies.slot) : Prop :=
  exists m, s = Movies.SMovie m.

(** The store keeps emails and ids unique, and every id is below the next
    AUTO_INCREMENT value. *)
Definition well_formed (d : Auth.db) : Prop :=
  NoDup (map Auth.u_email (Auth.rows d)) /\
  NoDup (map Auth.u_id (Auth.rows d)) /\
  Forall (fun u => (Auth.u_id u < Auth.next_id d)%Z) (Auth.rows d).

(** The messages an account route can send with a failure. *)
Definition account_messages : list string :=
  [ "Username, email, and password are required";
    "Please provide a valid email address";
    "Password must be at least 6 characters long";
    "Email already registered";
    "Internal server error during registration";
    "Email and password are required";
    "Invalid email or password";
    "Internal server error during login" ].

(** The strings a regular expression matches as a whole. *)
Inductive matches : regex -> string -> Prop :=
| MEmpty : matches Empty ""
| MClass p c : p c = true -> matches (Class p) (String c "")
| MSeq r1 r2 s1 s2 :
    matches r1 s1 -> matches r2 s2 -> matches (Seq r1 r2) (s1 ++ s2)
| MAltL r1 r2 s : matches r1 s -> matches (Alt r1 r2) s
| MAltR r1 r2 s : matches r2 s -> matches (Alt r1 r2) s
| MStarNil r : matches (Star r) ""
| MStarApp r s1 s2 :
    matches r s1 -> matches (Star r) s2 -> matches (Star r) (s1 ++ s2).

(** Every code unit of [s] satisfies [p]. *)
Fixpoint all_chars (p : ascii -> bool) (s : string) : bool :=
  match s with
  | EmptyString => true
  | String c r => p c && all_chars p r
  end.

(** A non-empty run without white space and without an at sign. *)
Definition label (s : string) : Prop :=
  s <> "" /\ all_chars Auth.not_space_at s = true.

(** The basic shape [local@domain.tld]. *)
Definition email_shape (s : string) : Prop :=
  exists l d t, s = l ++ "@" ++ d ++ "." ++ t /\ label l /\ label d /\ label t.

(** [Number.MAX_SAFE_INTEGER]: up to here every integer is a double, so
    the exact numbers of the model are the numbers of the engine. *)
Definition MAX_SAFE_INTEGER : N := 2 ^ 53 - 1.

(** Decimals of at most fifteen significant digits: each names one
    double and is named by it. *)
Definition fifteen_digits (m : N) : Prop := (m < 10 ^ 15)%N.

(** [VARCHAR(100)], [VARCHAR(100)], [VARCHAR(255)], [VARCHAR(20)] and
    [INT] of the users table: a registration whose values fit the
    columns, so that the INSERT is neither refused nor cut short. *)
Definition fits_columns (bcrypt_hash : string -> Z -> string)
    (b : Auth.register_body) (d : Auth.db) : Prop :=
  (String.length (ToString (Auth.r_username b)) <= 100)%nat /\
  (String.length (ToString (Auth.r_email b)) <= 100)%nat /\
  (String.length (bcrypt_hash (ToString (Auth.r_password b)) Auth.SALT_ROUNDS)
   <= 255)%nat /\
  (forall phone, Auth.r_phone b = Some phone -> (String.length phone <= 20)%nat) /\
  (1 <= Auth.next_id d <= 2147483647)%Z.

(** A provider field that has a value: a string that is neither empty
    nor the sentinel. *)
Definition available (v : option string) (value : string) : Prop :=
  v = Some value /\ value <> "" /\ value <> "N/A".

End Props.

(* ===================================================================== *)
(** ** Further records, providers and requests *)
(* ===================================================================== *)

Module Cases.

Import JS Movies.

(** A provider that is down. *)
Definition outage (log : calls) (p : params) : axios_result :=
  Rejected "connect ETIMEDOUT".

(** A provider that knows no movie. *)
Definition not_found : omdb_data :=
  {| Response := Some "False"; Error := Some "Movie not found!";
     imdbID := None; Title := None; Plot := None; Poster := None;
     Year := None; imdbRating := None; imdbVotes := None; Genre := None;
     Runtime := None; Director := None; Actors := None; Search := None;
     totalResults := None |}.

Definition knows_nothing (log : calls) (p : params) : axios_result :=
  Resolved (Some not_found).

Definition batman_query : search_query :=
  {| q_query := Some "batman"; q_page := Some "2" |}.

Definition signup : Client.signup_form :=
  {| Client.f_username := "  bob "; Client.f_email := " bob@example.com ";
     Client.f_password := "hunter22"; Client.f_phone := "" |}.

Definition signin : Client.login_form :=
  {| Client.g_email := " alice@example.com"; Client.g_password := "wonderland" |}.

(** Two logins whose password is the JSON number 12345: one for an
    email without a row, one for the email of a row. *)
Definition number_password_unknown : AuthJson.login_request :=
  {| AuthJson.j_email := Some (AuthJson.JStr "nobody@example.com");
     AuthJson.j_password := Some (AuthJson.JNum (Dec 12345 0)) |}.

Definition number_password_known : AuthJson.login_request :=
  {| AuthJson.j_email := Some (AuthJson.JStr "alice@example.com");
     AuthJson.j_password := Some (AuthJson.JNum (Dec 12345 0)) |}.

End Cases.

(* ===================================================================== *)
(** ** Facts about the JavaScript fragment *)
(* ===================================================================== *)

Section JSFacts.

Import JS Spec.

(** The parsers on a few inputs. *)
Example parseInt_runs :
  parseInt "12" = Dec 12 0 /\
  parseInt (remove_commas "2,345,678") = Dec 2345678 0 /\
  parseInt "  -42px" = Dec (-42) 0 /\
  parseInt "0x1F" = Dec 31 0 /\
  parseInt "N/A" = NaN /\
  parseInt "" = NaN /\
  parseInt (ToString None) = NaN.
Proof. repeat split. Qed.

Example parseFloat_runs :
  parseFloat "8.8" = Dec 88 (-1) /\
  parseFloat "8.8/10" = Dec 88 (-1) /\
  parseFloat ".5e1" = Dec 5 0 /\
  parseFloat "-Infinity" = Infinity true /\
  parseFloat "1e" = Dec 1 0 /\
  parseFloat "." = NaN /\
  parseFloat "unrated" = NaN.
Proof. repeat split. Qed.

Example ToNumber_runs :
  ToNumber "123" = Dec 123 0 /\
  ToNumber " 12 " = Dec 12 0 /\
  ToNumber "" = Dec 0 0 /\
  ToNumber "0x10" = Dec 16 0 /\
  ToNumber "12abc" = NaN /\
  Math_ceil (div10 (ToNumber "123")) = Dec 13 0 /\
  Math_ceil (div10 (ToNumber "120")) = Dec 12 0.
Proof. repeat split. Qed.

Example emailRegex_runs :
  Auth.emailRegex_test "alice@example.com" = true /\
  Auth.emailRegex_test "a@b.c.d" = true /\
  Auth.emailRegex_test "a@b" = false /\
  Auth.emailRegex_test "a b@c.d" = false /\
  Auth.emailRegex_test "a@@b.c" = false /\
  Auth.emailRegex_test "@b.c" = false /\
  Auth.emailRegex_test "a@b." = false.
Proof. repeat split. Qed.

Lemma truthy_missing v : Spec.missing v -> truthy v = false.
Proof. intros [-> | ->]; reflexivity. Qed.

Lemma truthy_some s : s <> "" -> truthy (Some s) = true.
Proof. destruct s; [congruence | reflexivity]. Qed.

Lemma truthy_provided v : Spec.provided v -> truthy v = true.
Proof. intros (s & -> & Hs). apply truthy_some. exact Hs. Qed.

(** Reading a decimal numeral gives back its digits and stops at the end
    of the string. *)
Lemma read_digits_uint d :
  read_digits 10 (NilEmpty.string_of_uint d) = (uint_digits d, "").
Proof.
  induction d; [reflexivity | ..];
    cbn [NilEmpty.string_of_uint uint_digits read_digits];
    rewrite IHd; reflexivity.
Qed.

Lemma digits_value_acc d acc :
  fold_left (fun a k => a * 10 + k)%N (uint_digits d) (Npos acc)
  = Npos (Pos.of_uint_acc d acc).
Proof.
  revert acc. induction d; intros acc; [reflexivity | ..];
    cbn [uint_digits fold_left Pos.of_uint_acc];
    rewrite <- IHd; f_equal; lia.
Qed.

Lemma digits_value_uint d : digits_value 10 (uint_digits d) = N.of_uint d.
Proof.
  unfold digits_value, N.of_uint.
  induction d; [reflexivity | assumption | ..];
    cbn [uint_digits fold_left Pos.of_uint];
    apply digits_value_acc.
Qed.

Lemma digits_value_decimal n :
  digits_value 10 (uint_digits (N.to_uint n)) = n.
Proof. rewrite digits_value_uint. apply DecimalN.Unsigned.of_to. Qed.

Lemma to_uint_nonnil n : N.to_uint n <> Decimal.Nil.
Proof.
  destruct n; simpl; [discriminate | apply DecimalPos.Unsigned.to_uint_nonnil].
Qed.

Lemma decimal_unfold n : decimal n = NilEmpty.string_of_uint (N.to_uint n).
Proof.
  unfold decimal, NilZero.string_of_uint.
  pose proof (to_uint_nonnil n). destruct (N.to_uint n); congruence.
Qed.

Lemma uint_digits_nonnil d : d <> Decimal.Nil -> uint_digits d <> [].
Proof. destruct d; simpl; congruence. Qed.

(** A decimal numeral has no white space, so trimming leaves it alone. *)
Lemma skip_ws_uint d :
  skip_ws (NilEmpty.string_of_uint d) = NilEmpty.string_of_uint d.
Proof. destruct d; reflexivity. Qed.

Lemma rtrim_uint d :
  rtrim (NilEmpty.string_of_uint d) = NilEmpty.string_of_uint d.
Proof. induction d; [reflexivity | ..]; simpl; rewrite IHd; reflexivity. Qed.

(** [parseInt] of a decimal numeral is its value. *)
Lemma parseInt_uint d :
  d <> Decimal.Nil ->
  parseInt (NilEmpty.string_of_uint d)
  = Dec (Z.of_N (digits_value 10 (uint_digits d))) 0.
Proof.
  intros Hd. unfold parseInt. rewrite skip_ws_uint.
  assert (Hsign : read_sign (NilEmpty.string_of_uint d)
                  = (false, NilEmpty.string_of_uint d))
    by (destruct d; reflexivity).
  rewrite Hsign.
  assert (Hradix :
    match NilEmpty.string_of_uint d with
    | String "0" (String "x" r) => (16%N, r)
    | String "0" (String "X" r) => (16%N, r)
    | _ => (10%N, NilEmpty.string_of_uint d)
    end = (10%N, NilEmpty.string_of_uint d)).
  { destruct d as [|d'| | | | | | | | |]; try reflexivity.
    destruct d'; reflexivity. }
  rewrite Hradix, read_digits_uint.
  pose proof (uint_digits_nonnil d Hd).
  destruct (uint_digits d); [congruence | reflexivity].
Qed.

Lemma parseInt_decimal n : parseInt (decimal n) = Dec (Z.of_N n) 0.
Proof.
  rewrite decimal_unfold, parseInt_uint by apply to_uint_nonnil.
  rewrite digits_value_decimal. reflexivity.
Qed.

(** [ToNumber] of a decimal numeral is its value. *)
Lemma ToNumber_uint d :
  d <> Decimal.Nil ->
  ToNumber (NilEmpty.string_of_uint d)
  = Dec (Z.of_N (digits_value 10 (uint_digits d))) 0.
Proof.
  intros Hd. unfold ToNumber. rewrite skip_ws_uint, rtrim_uint.
  assert (Hdec : read_decimal (NilEmpty.string_of_uint d)
                 = Some (Dec (Z.of_N (digits_value 10 (uint_digits d))) 0, "")).
  { unfold read_decimal.
    replace (read_sign (NilEmpty.string_of_uint d))
      with (false, NilEmpty.string_of_uint d) by (destruct d; reflexivity).
    unfold read_unsigned_decimal.
    replace (strip_prefix "Infinity" (NilEmpty.string_of_uint d))
      with (@None string) by (destruct d; reflexivity).
    rewrite read_digits_uint.
    pose proof (uint_digits_nonnil d Hd).
    destruct (uint_digits d) as [|k ds] eqn:E; [congruence |].
    simpl. rewrite app_nil_r. reflexivity. }
  rewrite Hdec.
  destruct d as [|d'| | | | | | | | |]; try congruence; try reflexivity.
  destruct d'; reflexivity.
Qed.

Lemma ToNumber_decimal n : ToNumber (decimal n) = Dec (Z.of_N n) 0.
Proof.
  rewrite decimal_unfold, ToNumber_uint by apply to_uint_nonnil.
  rewrite digits_value_decimal. reflexivity.
Qed.

Lemma decimal_truthy n : truthy (Some (decimal n)) = true.
Proof.
  rewrite decimal_unfold. pose proof (to_uint_nonnil n).
  destruct (N.to_uint n); [congruence | reflexivity ..].
Qed.

Example decimal_23 : decimal 23 = "23" /\ decimal 0 = "0" /\ decimal 1200 = "1200".
Proof. repeat split. Qed.

(** [pages_of_10 n] is the least number of pages of ten that hold [n]
    results. *)
Lemma pages_of_10_ceiling n :
  (Z.of_N n <= 10 * pages_of_10 n < Z.of_N n + 10)%Z.
Proof.
  unfold pages_of_10.
  pose proof (Z.div_mod (Z.of_N n + 9) 10 ltac:(lia)).
  pose proof (Z.mod_pos_bound (Z.of_N n + 9) 10 ltac:(lia)).
  lia.
Qed.

(** Rounding a tenth of a count up gives the number of pages. *)
Lemma ceil_tenth n : Math_ceil (div10 (Dec (Z.of_N n) 0)) = Dec (pages_of_10 n) 0.
Proof.
  unfold Math_ceil, div10, pages_of_10. simpl.
  f_equal. change (Z.pow_pos 10 1) with 10%Z.
  pose proof (Z.div_mod (- Z.of_N n) 10 ltac:(lia)).
  pose proof (Z.mod_pos_bound (- Z.of_N n) 10 ltac:(lia)).
  pose proof (Z.div_mod (Z.of_N n + 9) 10 ltac:(lia)).
  pose proof (Z.mod_pos_bound (Z.of_N n + 9) 10 ltac:(lia)).
  lia.
Qed.

End JSFacts.

(* ===================================================================== *)
(** ** Facts about the batch fetcher *)
(* ===================================================================== *)

Section BatchFacts.

Import JS Spec Movies.

Variable key : option string.
Variable axios_get : calls -> params -> axios_result.

Local Abbreviation fetch := (fetchFromOMDB key axios_get).

(** One call of [fetchFromOMDB] issues exactly one request. *)
Lemma fetch_log p log : snd (fetch p log) = (log ++ [with_key key p])%list.
Proof.
  unfold fetchFromOMDB, Eff.bind, request.
  destruct (axios_get log (with_key key p)) as [e | [data|]]; try reflexivity.
  destruct (strict_eq (Response data) "False"); reflexivity.
Qed.

Lemma title_callback_run t log :
  title_callback key axios_get t log
  = (Returned (title_slot (fst (fetch (title_params t) log))),
     (log ++ [with_key key (title_params t)])%list).
Proof.
  unfold title_callback, Eff.try_catch, Eff.bind at 1.
  pose proof (fetch_log (title_params t) log) as Hlog.
  destruct (fetch (title_params t) log) as [[d | e] log']; simpl in *; subst log'.
  - unfold has_title. destruct (truthy (Title d)); reflexivity.
  - reflexivity.
Qed.

Lemma hit_callback_run h log :
  hit_callback key axios_get h log
  = (Returned (hit_slot (fst (fetch (id_params (hit_imdbID h)) log))),
     (log ++ [with_key key (id_params (hit_imdbID h))])%list).
Proof.
  unfold hit_callback, Eff.try_catch, Eff.bind at 1.
  pose proof (fetch_log (id_params (hit_imdbID h)) log) as Hlog.
  destruct (fetch (id_params (hit_imdbID h)) log) as [[d | e] log'];
    simpl in *; subst log'; reflexivity.
Qed.

(** Callbacks that turn the outcome of one provider call into an array
    entry settle to the entries of the outcomes, position by position,
    and issue one request per key, in key order. *)
Lemma settle_callbacks {X} (f : X -> Eff.M calls slot) (g : X -> params)
    (k : outcome omdb_data -> slot) :
  (forall x log,
      f x log = (Returned (k (fst (fetch (g x) log))),
                 (log ++ [with_key key (g x)])%list)) ->
  forall xs log,
    Eff.settle_all (map f xs) log
    = (map (fun o => Returned (k o)) (fetch_outcomes key axios_get (map g xs) log),
       (log ++ map (fun x => with_key key (g x)) xs)%list).
Proof.
  intros Hf. unfold fetch_outcomes.
  induction xs as [|x xs IH]; intros log; simpl.
  - rewrite app_nil_r. reflexivity.
  - rewrite Hf.
    pose proof (fetch_log (g x) log) as Hlog.
    destruct (fetch (g x) log) as [o log1]; simpl in *; subst log1.
    rewrite IH.
    destruct (Eff.settle_all (map fetch (map g xs)) (log ++ [with_key key (g x)])%list)
      as [os log2]; simpl.
    rewrite <- app_assoc. reflexivity.
Qed.

Lemma collect_returned {A B} (k : A -> B) (l : list A) :
  Eff.collect (map (fun o => Returned (k o)) l) = Returned (map k l).
Proof. induction l; simpl; [reflexivity | rewrite IHl; reflexivity]. Qed.

(** The batch over titles: it returns, with the non-null entries of the
    settled calls, after one request per title. *)
Lemma fetchMoviesByTitles_run titles log :
  fetchMoviesByTitles key axios_get titles log
  = (Returned (filter not_null
                 (map title_slot
                    (fetch_outcomes key axios_get (map title_params titles) log))),
     (log ++ map (fun t => with_key key (title_params t)) titles)%list).
Proof.
  unfold fetchMoviesByTitles, Eff.bind, Eff.promise_all.
  rewrite (settle_callbacks _ title_params title_slot title_callback_run).
  rewrite collect_returned. reflexivity.
Qed.

(** The detail stage of the search: the same, over at most eight hits. *)
Lemma search_details_run hits log :
  search_details key axios_get hits log
  = (Returned (filter not_null
                 (map hit_slot
                    (fetch_outcomes key axios_get
                       (map (fun h => id_params (hit_imdbID h)) (firstn 8 hits)) log))),
     (log ++ map (fun h => with_key key (id_params (hit_imdbID h)))
               (firstn 8 hits))%list).
Proof.
  unfold search_details, Eff.bind, Eff.promise_all.
  rewrite (settle_callbacks _ (fun h => id_params (hit_imdbID h)) hit_slot
             hit_callback_run).
  rewrite collect_returned. reflexivity.
Qed.

(** Failed calls leave nothing behind, and the movies that remain are
    the normalized payloads that carry a title, in key order. *)
Lemma title_slots_movies (os : list (outcome omdb_data)) :
  movies_of (filter not_null (map title_slot os))
  = map formatMovie (filter has_title (returned os)).
Proof.
  induction os as [|[d | e] os IH]; simpl; try assumption.
  - reflexivity.
  - destruct (has_title d); simpl; rewrite IH; reflexivity.
Qed.


Lemma hit_slots_movies (os : list (outcome omdb_data)) :
  filter not_null (map hit_slot os) = map SMovie (map formatMovie (returned os)).
Proof.
  induction os as [|[d | e] os IH]; simpl; try assumption.
  - reflexivity.
  - rewrite IH; reflexivity.
Qed.

(** When every payload that comes back carries a title, the batch is
    exactly the normalized payloads of the calls that succeeded. *)
Lemma title_slots_all_titled (os : list (outcome omdb_data)) :
  forallb has_title (returned os) = true ->
  filter not_null (map title_slot os) = map SMovie (map formatMovie (returned os)).
Proof.
  induction os as [|[d | e] os IH]; simpl; intros H; auto.
  apply andb_prop in H as [Hd Hos]. rewrite Hd. simpl. rewrite IH by assumption.
  reflexivity.
Qed.

End BatchFacts.

(* ===================================================================== *)
(** ** The record normalizer *)
(* ===================================================================== *)

Section Normalizer.

Import JS Spec Movies.

Lemma present_unavailable v : unavailable v -> present v = false.
Proof. intros [-> | ->]; reflexivity. Qed.

Lemma present_not_sentinel v : present v = true -> v <> Some sentinel.
Proof.
  unfold present. intros H ->. simpl in H. discriminate.
Qed.

(** C8. For every provider record the poster and the backdrop of the
    normalized movie are equal, and both come from the one [Poster]
    field: when that field has a value, both are that value; when it is
    absent, empty or the sentinel, both are null. *)
Theorem formatMovie_poster_is_backdrop (m : omdb_data) :
  posterPath (formatMovie m) = backdropPath (formatMovie m) /\
  (forall url, Props.available (Poster m) url ->
     posterPath (formatMovie m) = Some url /\
     backdropPath (formatMovie m) = Some url) /\
  (unavailable (Poster m) \/ missing (Poster m) ->
     posterPath (formatMovie m) = None /\
     backdropPath (formatMovie m) = None).
Proof.
  split; [reflexivity |]. split.
  - intros url (Hp & Hne & Hna). simpl. rewrite Hp.
    assert (Hpresent : present (Some url) = true).
    { unfold present. rewrite (truthy_some _ Hne). simpl.
      destruct (String.eqb url "N/A") eqn:E; [| reflexivity].
      apply String.eqb_eq in E. congruence. }
    rewrite Hpresent. split; reflexivity.
  - intros H. simpl. destruct H as [[-> | ->] | [-> | ->]]; split; reflexivity.
Qed.

(** The poster of a full record is its URL twice; the poster of the
    obscure film, the sentinel, gives null twice. *)
Lemma formatMovie_poster_is_backdrop_witness :
  (posterPath (formatMovie Samples.inception)
   = Some "https://img.example/inception.jpg" /\
   backdropPath (formatMovie Samples.inception)
   = Some "https://img.example/inception.jpg") /\
  (posterPath (formatMovie Samples.obscure_film) = None /\
   backdropPath (formatMovie Samples.obscure_film) = None).
Proof.
  assert (Hurl : Props.available (Poster Samples.inception)
                   "https://img.example/inception.jpg")
    by (repeat split; discriminate).
  assert (Hna : unavailable (Poster Samples.obscure_film)
                \/ missing (Poster Samples.obscure_film))
    by (left; right; reflexivity).
  exact (conj
           (proj1 (proj2 (formatMovie_poster_is_backdrop Samples.inception))
              _ Hurl)
           (proj2 (proj2 (formatMovie_poster_is_backdrop Samples.obscure_film))
              Hna)).
Defined.

(** C1, as the code has it. The overview, the two image fields, the
    release date and the rating are guarded: they are never the sentinel,
    and an absent or sentinel provider field gives the placeholder or
    null. The vote count is null when the field is absent. The title, the
    runtime, the director and the actors are the provider's fields
    unchanged, the genre is the provider's field or the empty string, and
    the id is the provider's id or else the title: in these the sentinel
    passes through. *)
Theorem formatMovie_guarded_fields (m : omdb_data) :
  (overview (formatMovie m) <> sentinel /\
   posterPath (formatMovie m) <> Some sentinel /\
   backdropPath (formatMovie m) <> Some sentinel /\
   releaseDate (formatMovie m) <> Some sentinel) /\
  (unavailable (Plot m) ->
   overview (formatMovie m) = "No description available.") /\
  (unavailable (Poster m) ->
   posterPath (formatMovie m) = None /\ backdropPath (formatMovie m) = None) /\
  (unavailable (Year m) -> releaseDate (formatMovie m) = None) /\
  (unavailable (imdbRating m) -> rating (formatMovie m) = None) /\
  (imdbVotes m = None -> voteCount (formatMovie m) = None) /\
  (title (formatMovie m) = Title m /\
   runtime (formatMovie m) = Runtime m /\
   director (formatMovie m) = Director m /\
   actors (formatMovie m) = Actors m) /\
  (forall g, Genre m = Some g -> genre (formatMovie m) = g) /\
  (Genre m = None -> genre (formatMovie m) = "") /\
  (forall i, imdbID m = Some i -> i <> "" -> id (formatMovie m) = Some i) /\
  (missing (imdbID m) -> id (formatMovie m) = Title m).
Proof.
  repeat split; simpl.
  - destruct (present (Plot m)) eqn:E; [| discriminate].
    destruct (Plot m) as [plot|]; [| discriminate E].
    apply present_not_sentinel in E. simpl. congruence.
  - destruct (present (Poster m)) eqn:E; [| discriminate].
    apply present_not_sentinel; assumption.
  - destruct (present (Poster m)) eqn:E; [| discriminate].
    apply present_not_sentinel; assumption.
  - destruct (present (Year m)) eqn:E; [| discriminate].
    apply present_not_sentinel; assumption.
  - intros H. rewrite (present_unavailable _ H). reflexivity.
  - rewrite (present_unavailable _ H). reflexivity.
  - rewrite (present_unavailable _ H). reflexivity.
  - intros H. rewrite (present_unavailable _ H). reflexivity.
  - intros H. rewrite (present_unavailable _ H). reflexivity.
  - intros ->. reflexivity.
  - intros g ->. destruct g; reflexivity.
  - intros ->. reflexivity.
  - intros i -> Hi. rewrite (truthy_some _ Hi). reflexivity.
  - intros H. rewrite (truthy_missing _ H). reflexivity.
Qed.

(** The guarded fields of the obscure film are the placeholder and null,
    and its title passes through. *)
Lemma formatMovie_guarded_fields_witness :
  unavailable (Plot Samples.obscure_film) /\
  unavailable (Poster Samples.obscure_film) /\
  unavailable (imdbRating Samples.obscure_film) /\
  overview (formatMovie Samples.obscure_film) = "No description available." /\
  posterPath (formatMovie Samples.obscure_film) = None /\
  rating (formatMovie Samples.obscure_film) = None /\
  id (formatMovie Samples.obscure_film) = Some "tt0000001".
Proof.
  pose proof (formatMovie_guarded_fields Samples.obscure_film)
    as (_ & Hplot & Hposter & _ & Hrating & _ & _ & _ & _ & Hid & _).
  assert (Hp : unavailable (Plot Samples.obscure_film)) by (right; reflexivity).
  assert (Hq : unavailable (Poster Samples.obscure_film)) by (right; reflexivity).
  assert (Hr : unavailable (imdbRating Samples.obscure_film)) by (right; reflexivity).
  refine (conj Hp (conj Hq (conj Hr (conj (Hplot Hp)
           (conj (proj1 (Hposter Hq)) (conj (Hrating Hr) _)))))).
  apply Hid; [reflexivity | discriminate].
Defined.

(** C1, as the claim has it, fails: the genre, runtime, director and
    actors of the obscure film come out as the sentinel. *)
Lemma formatMovie_sentinel_leaks :
  genre (formatMovie Samples.obscure_film) = sentinel /\
  runtime (formatMovie Samples.obscure_film) = Some sentinel /\
  director (formatMovie Samples.obscure_film) = Some sentinel /\
  actors (formatMovie Samples.obscure_film) = Some sentinel /\
  ~ sentinel_free (formatMovie Samples.obscure_film).
Proof.
  repeat split. intros (_ & _ & _ & _ & _ & _ & Hgenre & _).
  apply Hgenre. reflexivity.
Qed.

(** C5 at the inputs where it fails: a vote count that is the sentinel
    and a rating that is not a decimal both come out as NaN, which is
    neither null nor a number. *)
Theorem formatMovie_numeric_NaN :
  imdbVotes Samples.obscure_film = Some sentinel /\
  voteCount (formatMovie Samples.obscure_film) = Some NaN /\
  imdbRating Samples.garbled_rating = Some "unrated" /\
  rating (formatMovie Samples.garbled_rating) = Some NaN.
Proof. repeat split. Qed.

(** Where the numeric fields do parse. *)
Example formatMovie_inception_numbers :
  rating (formatMovie Samples.inception) = Some (Dec 88 (-1)) /\
  voteCount (formatMovie Samples.inception) = Some (Dec 2345678 0).
Proof. split; reflexivity. Qed.

End Normalizer.

(* ===================================================================== *)
(** ** The batch fetcher and the search route *)
(* ===================================================================== *)

Section Catalog.

Import JS Spec Movies.

(** The batch over titles never throws, whatever the provider does. *)
Lemma fetchMoviesByTitles_returns key axios_get titles log :
  exists entries, fst (fetchMoviesByTitles key axios_get titles log) = Returned entries.
Proof. rewrite fetchMoviesByTitles_run. eexists. reflexivity. Qed.

(** Its movies are the normalized payloads of the calls that came back
    with a title, in key order; a failed call leaves no entry. *)
Lemma fetchMoviesByTitles_movies key axios_get titles log entries :
  fst (fetchMoviesByTitles key axios_get titles log) = Returned entries ->
  movies_of entries
  = map formatMovie
      (filter has_title
         (returned (fetch_outcomes key axios_get (map title_params titles) log)))
  /\ ~ In SNull entries.
Proof.
  rewrite fetchMoviesByTitles_run. simpl. intros [= <-]. split.
  - apply title_slots_movies.
  - intros H. apply filter_In in H as [_ H]. discriminate.
Qed.

(** When every payload that comes back has a title, the batch is exactly
    the normalized payloads of the succeeding keys, in key order. *)
Lemma fetchMoviesByTitles_all_titled key axios_get titles log :
  forallb has_title
    (returned (fetch_outcomes key axios_get (map title_params titles) log)) = true ->
  fst (fetchMoviesByTitles key axios_get titles log)
  = Returned
      (map SMovie
         (map formatMovie
            (returned (fetch_outcomes key axios_get (map title_params titles) log)))).
Proof.
  intros H. rewrite fetchMoviesByTitles_run. simpl.
  rewrite title_slots_all_titled by assumption. reflexivity.
Qed.

(** The detail stage of the search never throws; it normalizes every
    payload that comes back, titled or not, in hit order. *)
Lemma search_details_entries key axios_get hits log :
  fst (search_details key axios_get hits log)
  = Returned
      (map SMovie
         (map formatMovie
            (returned
               (fetch_outcomes key axios_get
                  (map (fun h => id_params (hit_imdbID h)) (firstn 8 hits)) log)))).
Proof. rewrite search_details_run. simpl. rewrite hit_slots_movies. reflexivity. Qed.

(** C2 at the input where it fails. For the titles A, B, C, where the
    provider answers B with a payload that has no title, all three calls
    succeed and B is the only one without a title; the batch nevertheless
    has three entries, the middle one [undefined], where the claim has
    the two normalized records. The detail stage of the search has no
    title check: an untitled payload is normalized and kept. *)
Theorem fetchMoviesByTitles_keeps_untitled :
  fetch_outcomes Samples.some_key Samples.provider
    (map title_params ["A"; "B"; "C"]) []
  = [Returned (Samples.titled "A"); Returned Samples.untitled;
     Returned (Samples.titled "C")] /\
  has_title Samples.untitled = false /\
  fst (fetchMoviesByTitles Samples.some_key Samples.provider ["A"; "B"; "C"] [])
  = Returned [SMovie (formatMovie (Samples.titled "A")); SUndefined;
              SMovie (formatMovie (Samples.titled "C"))] /\
  fst (search_details Samples.some_key Samples.provider [Samples.hit "tt01"] [])
  = Returned [SMovie (formatMovie Samples.untitled)].
Proof. repeat split. Qed.

(** The same titles when the call for B fails instead: B is dropped and
    the two others stay in order. *)
Example fetchMoviesByTitles_drops_failure :
  fst (fetchMoviesByTitles Samples.some_key
         (fun log p => match p_t p with
                       | Some "B" => Rejected "timeout of 10000ms exceeded"
                       | _ => Samples.provider log p
                       end)
         ["A"; "B"; "C"] [])
  = Returned [SMovie (formatMovie (Samples.titled "A"));
              SMovie (formatMovie (Samples.titled "C"))].
Proof. reflexivity. Qed.

(** C9. A search whose query is absent or empty is answered with 400 and
    success false, and issues no provider request, whatever the key
    configuration and the provider. *)
Theorem search_without_query key axios_get (q : search_query) log :
  missing (q_query q) ->
  exists r,
    search key axios_get q log = (Returned r, log) /\
    status r = 400%Z /\
    success r = false /\
    payload r = Failure "Search query is required".
Proof.
  intros H. unfold search, Eff.try_catch. rewrite (truthy_missing _ H).
  eexists. repeat split.
Qed.

(** The empty query with no key configured. *)
Lemma search_without_query_witness :
  exists r,
    search None Samples.provider {| q_query := Some ""; q_page := None |} []
    = (Returned r, []) /\
    status r = 400%Z /\
    success r = false /\
    payload r = Failure "Search query is required".
Proof.
  exact (search_without_query None Samples.provider
           {| q_query := Some ""; q_page := None |} [] (or_intror eq_refl)).
Defined.

(** C4. A search with a query, a configured key and a search response
    that reports [n] results, [n] a safe integer, issues, after the
    search request, one detail request for each of the first eight hits
    and no other; and it answers with totalPages = ceil(n / 10) and
    totalResults = n, whatever the detail stage returns. Up to
    [MAX_SAFE_INTEGER] the count, its tenth rounded up and the quotient
    the engine rounds it from are the numbers of the model. *)
Theorem search_caps_details_and_pages key axios_get (q : search_query) log
    (searchData : omdb_data) (n : N) :
  truthy (q_query q) = true ->
  key_missing key = false ->
  axios_get log (with_key key (search_params (ToString (q_query q)) (q_page q)))
  = Resolved (Some searchData) ->
  strict_eq (Response searchData) "False" = false ->
  (n <= Props.MAX_SAFE_INTEGER)%N ->
  totalResults searchData = Some (decimal n) ->
  exists page movies,
    search key axios_get q log
    = (Returned {| status := 200;
                   payload := Success (MovieList page (Dec (pages_of_10 n) 0)
                                         (Dec (Z.of_N n) 0) movies) |},
       (log ++ with_key key (search_params (ToString (q_query q)) (q_page q))
            :: map (fun h => with_key key (id_params (hit_imdbID h)))
                 (firstn 8 (hits_of searchData)))%list)
    /\ (List.length (firstn 8 (hits_of searchData)) <= 8)%nat.
Proof.
  intros Hq Hkey Hget Hresp Hsafe Htotal.
  set (sp := search_params (ToString (q_query q)) (q_page q)) in *.
  assert (Hfetch : fetchFromOMDB key axios_get sp log
                   = (Returned searchData, (log ++ [with_key key sp])%list)).
  { unfold fetchFromOMDB, Eff.bind, request. rewrite Hget, Hresp. reflexivity. }
  assert (Hpages : Math_ceil (total_over_10 searchData) = Dec (pages_of_10 n) 0).
  { unfold total_over_10. rewrite Htotal, decimal_truthy. simpl ToString.
    rewrite ToNumber_decimal. apply ceil_tenth. }
  assert (Htot : or_num (parseInt (ToString (totalResults searchData))) (Dec 0 0)
                 = Dec (Z.of_N n) 0).
  { rewrite Htotal. simpl ToString. rewrite parseInt_decimal.
    unfold or_num, truthy_num. destruct n; reflexivity. }
  unfold search, Eff.try_catch, Eff.bind at 1.
  rewrite Hq, Hkey. cbn [negb]. cbv beta iota. fold sp. rewrite Hfetch.
  unfold Eff.bind, hits_of.
  destruct (Search searchData) as [hits|].
  - rewrite search_details_run. unfold send, Eff.ret.
    rewrite Hpages, Htot. do 2 eexists. split.
    + rewrite <- app_assoc. reflexivity.
    + apply firstn_le_length.
  - unfold send, Eff.ret. rewrite Hpages, Htot. do 2 eexists. split.
    + reflexivity.
    + simpl. lia.
Qed.

Lemma safe_23 : (23 <= Props.MAX_SAFE_INTEGER)%N.
Proof. discriminate. Defined.

(** A search that finds 23 results, ten of them on the first page:
    eight detail requests, three pages. *)
Lemma search_caps_details_and_pages_witness :
  exists page movies,
    search Samples.some_key Samples.provider
      {| q_query := Some "batman"; q_page := None |} []
    = (Returned {| status := 200;
                   payload := Success (MovieList page (Dec 3 0) (Dec 23 0) movies) |},
       with_key Samples.some_key (search_params "batman" None)
         :: map (fun h => with_key Samples.some_key (id_params (hit_imdbID h)))
              (firstn 8 Samples.ten_hits))
    /\ (List.length (firstn 8 Samples.ten_hits) <= 8)%nat.
Proof.
  exact (search_caps_details_and_pages Samples.some_key Samples.provider
           {| q_query := Some "batman"; q_page := None |} []
           Samples.search_page 23
           eq_refl eq_refl eq_refl eq_refl safe_23 eq_refl).
Defined.

End Catalog.

(* ===================================================================== *)
(** ** The account routes *)
(* ===================================================================== *)

Section Accounts.

Import JS Spec Auth.

Variable bcrypt_hash : string -> Z -> string.
Variable bcrypt_compare : string -> string -> bool.

Lemma String_length_ltb_6 p :
  (String.length p <? 6)%nat = false <-> (6 <= String.length p)%nat.
Proof. rewrite Nat.ltb_ge. reflexivity. Qed.

(** The three local checks of the registration route pass exactly on the
    requests that pass validation. *)
Lemma passes_validation_checks (b : register_body) :
  passes_validation b ->
  truthy (r_username b) = true /\ truthy (r_email b) = true /\
  truthy (r_password b) = true /\
  emailRegex_test (ToString (r_email b)) = true /\
  (String.length (ToString (r_password b)) <? 6)%nat = false.
Proof.
  intros (u & e & p & -> & Hu & -> & He & Hre & -> & Hp). cbn [ToString].
  rewrite String_length_ltb_6.
  repeat split; try assumption.
  - apply truthy_some; assumption.
  - apply truthy_some; assumption.
  - destruct p; [simpl in Hp; lia | reflexivity].
Qed.

Lemma fails_validation_checks (b : register_body) :
  fails_validation b ->
  negb (truthy (r_username b)) || negb (truthy (r_email b))
    || negb (truthy (r_password b)) = true
  \/ emailRegex_test (ToString (r_email b)) = false
  \/ (String.length (ToString (r_password b)) <? 6)%nat = true.
Proof.
  intros [H | [H | [H | [(e & He & Hre) | (p & Hp & Hlen)]]]].
  - left. rewrite (truthy_missing _ H). reflexivity.
  - left. rewrite (truthy_missing _ H). apply orb_true_iff. left.
    apply orb_true_r.
  - left. rewrite (truthy_missing _ H). apply orb_true_r.
  - right. left. rewrite He. exact Hre.
  - right. right. rewrite Hp. simpl. apply Nat.ltb_lt. exact Hlen.
Qed.

(** Every request field is given or missing, and every registration
    passes or fails the local checks, never both. *)
Lemma provided_or_missing v : provided v \/ missing v.
Proof.
  destruct v as [[|c s]|].
  - right. right. reflexivity.
  - left. exists (String c s). split; [reflexivity | discriminate].
  - right. left. reflexivity.
Qed.

Lemma validation_decides (b : register_body) :
  passes_validation b \/ fails_validation b.
Proof.
  destruct (provided_or_missing (r_username b)) as [(u & Hu & Hu') | Hu];
    [| right; left; exact Hu].
  destruct (provided_or_missing (r_email b)) as [(e & He & He') | He];
    [| right; right; left; exact He].
  destruct (provided_or_missing (r_password b)) as [(p & Hp & Hp') | Hp];
    [| right; right; right; left; exact Hp].
  destruct (emailRegex_test e) eqn:Hre;
    [| right; right; right; right; left; exists e; auto].
  destruct (le_lt_dec 6 (String.length p)) as [Hlen | Hlen].
  - left. exists u, e, p. auto 10.
  - right. right. right. right. right. exists p. auto.
Qed.

Lemma validation_exclusive (b : register_body) :
  passes_validation b -> ~ fails_validation b.
Proof.
  intros Hpass Hfail.
  destruct (passes_validation_checks b Hpass) as (Hu & He & Hp & Hre & Hlen).
  apply fails_validation_checks in Hfail.
  rewrite Hu, He, Hp, Hre, Hlen in Hfail.
  destruct Hfail as [H | [H | H]]; discriminate.
Qed.

(** C6. A registration that fails a local check (a missing username,
    email or password, an email that does not have the basic shape, or a
    password of fewer than six characters) is answered with 400 and the
    store is left exactly as it was: no statement is issued, neither the
    uniqueness lookup nor an insert, whether or not the email is already
    registered. *)
Theorem register_validation_before_store (b : register_body) (d : db) :
  fails_validation b ->
  exists message,
    register bcrypt_hash b d
    = (Returned {| status := 400; payload := Failure message |}, d).
Proof.
  intros H. apply fails_validation_checks in H.
  unfold register, Eff.try_catch.
  destruct (negb (truthy (r_username b)) || negb (truthy (r_email b))
            || negb (truthy (r_password b))) eqn:E1.
  { eexists. reflexivity. }
  destruct (emailRegex_test (ToString (r_email b))) eqn:E2; simpl negb; cbv iota.
  2:{ eexists. reflexivity. }
  destruct (String.length (ToString (r_password b)) <? 6)%nat eqn:E3.
  { eexists. reflexivity. }
  destruct H as [H | [H | H]]; discriminate.
Qed.

(** Issuing a statement does not change what a lookup finds. *)
Lemma by_email_issue email st d : by_email email (issue st d) = by_email email d.
Proof. reflexivity. Qed.

(** The whole run of a valid registration whose email is taken. *)
Lemma register_conflict_run (b : register_body) (d : db) :
  passes_validation b ->
  online d = true ->
  by_email (ToString (r_email b)) d <> [] ->
  register bcrypt_hash b d
  = (Returned {| status := 409; payload := Failure "Email already registered" |},
     issue (SelectIdByEmail (ToString (r_email b))) d).
Proof.
  intros Hv Hon Hrows.
  destruct (passes_validation_checks b Hv) as (Hu & He & Hp & Hre & Hlen).
  unfold register, Eff.try_catch, Eff.bind.
  rewrite Hu, He, Hp, Hre, Hlen. cbn [negb orb]. cbv beta iota.
  unfold select_id_by_email. rewrite Hon.
  destruct (by_email (ToString (r_email b)) d) as [|u us]; [congruence |].
  reflexivity.
Qed.

(** The whole run of a valid registration whose email is fresh. *)
Lemma register_created_run (b : register_body) (d : db) :
  passes_validation b ->
  online d = true ->
  by_email (ToString (r_email b)) d = [] ->
  register bcrypt_hash b d
  = (Returned {| status := 201;
                 payload := Success (Registered "User registered successfully" (next_id d)) |},
     {| rows := (rows d ++
                 [ {| u_id := next_id d;
                      u_username := ToString (r_username b);
                      u_email := ToString (r_email b);
                      u_password := bcrypt_hash (ToString (r_password b)) SALT_ROUNDS;
                      u_phone := if truthy (r_phone b) then r_phone b else None |} ])%list;
        next_id := next_id d + 1;
        online := online d;
        issued := (issued d ++
                   [ SelectIdByEmail (ToString (r_email b));
                     InsertUser (ToString (r_username b)) (ToString (r_email b))
                       (bcrypt_hash (ToString (r_password b)) SALT_ROUNDS)
                       (if truthy (r_phone b) then r_phone b else None) ])%list |}).
Proof.
  intros Hv Hon Hrows.
  destruct (passes_validation_checks b Hv) as (Hu & He & Hp & Hre & Hlen).
  unfold register, Eff.try_catch, Eff.bind.
  rewrite Hu, He, Hp, Hre, Hlen. cbn [negb orb]. cbv beta iota.
  unfold select_id_by_email. rewrite Hon, Hrows.
  cbn [List.length Nat.ltb Nat.leb]. cbv beta iota.
  unfold insert_user. cbn [online issue]. rewrite Hon. cbn [negb].
  rewrite by_email_issue, Hrows. cbn. rewrite <- app_assoc. reflexivity.
Qed.


(** C10. A login whose email or password is the empty string is
    answered with 400 and the message of a missing field, and the store
    is left exactly as it was: no lookup is issued, so the 401 path is
    never reached. *)
Theorem login_empty_credential (b : login_body) (d : db) :
  l_email b = Some "" \/ l_password b = Some "" ->
  login bcrypt_compare b d
  = (Returned {| status := 400;
                 payload := Failure "Email and password are required" |}, d).
Proof.
  intros H. unfold login, Eff.try_catch.
  destruct H as [-> | ->]; [reflexivity |].
  rewrite orb_true_r. reflexivity.
Qed.

(** The whole run of a login whose email has no row. *)
Lemma login_unknown_email_run (b : login_body) (d : db) :
  provided (l_email b) -> provided (l_password b) ->
  online d = true ->
  by_email (ToString (l_email b)) d = [] ->
  login bcrypt_compare b d
  = (Returned {| status := 401; payload := Failure "Invalid email or password" |},
     issue (SelectUserByEmail (ToString (l_email b))) d).
Proof.
  intros He Hp Hon Hrows. unfold login, Eff.try_catch, Eff.bind.
  rewrite (truthy_provided _ He), (truthy_provided _ Hp). cbn [negb orb].
  cbv beta iota. unfold select_user_by_email. rewrite Hon, Hrows. reflexivity.
Qed.

(** The whole run of a login whose password does not match the hash of
    the row found. *)
Lemma login_wrong_password_run (b : login_body) (d : db) user others :
  provided (l_email b) -> provided (l_password b) ->
  online d = true ->
  by_email (ToString (l_email b)) d = user :: others ->
  bcrypt_compare (ToString (l_password b)) (u_password user) = false ->
  login bcrypt_compare b d
  = (Returned {| status := 401; payload := Failure "Invalid email or password" |},
     issue (SelectUserByEmail (ToString (l_email b))) d).
Proof.
  intros He Hp Hon Hrows Hcmp. unfold login, Eff.try_catch, Eff.bind.
  rewrite (truthy_provided _ He), (truthy_provided _ Hp). cbn [negb orb].
  cbv beta iota. unfold select_user_by_email. rewrite Hon, Hrows, Hcmp.
  reflexivity.
Qed.

(** Credentials that are strings. Two logins that both give an email
    and a password, against stores that can be reached: one whose email
    has no row, one whose email has a row but whose password does not
    match it. Both are answered with status 401 and the same body,
    message included, so the answers are equal as a whole. *)
Theorem login_failures_indistinguishable
    (b1 b2 : login_body) (d1 d2 : db) user others :
  provided (l_email b1) -> provided (l_password b1) ->
  provided (l_email b2) -> provided (l_password b2) ->
  online d1 = true -> online d2 = true ->
  by_email (ToString (l_email b1)) d1 = [] ->
  by_email (ToString (l_email b2)) d2 = user :: others ->
  bcrypt_compare (ToString (l_password b2)) (u_password user) = false ->
  exists r1 r2,
    fst (login bcrypt_compare b1 d1) = Returned r1 /\
    fst (login bcrypt_compare b2 d2) = Returned r2 /\
    status r1 = 401%Z /\ status r2 = 401%Z /\
    message r1 = message r2 /\
    r1 = r2.
Proof.
  intros He1 Hp1 He2 Hp2 Hon1 Hon2 Hnone Hrow Hcmp.
  rewrite (login_unknown_email_run b1 d1 He1 Hp1 Hon1 Hnone).
  rewrite (login_wrong_password_run b2 d2 user others He2 Hp2 Hon2 Hrow Hcmp).
  do 2 eexists. repeat split.
Qed.

End Accounts.

(** *** The account theorems at concrete requests *)

Section AccountRuns.

Import JS Spec Auth.

(** A password of five characters, with an email that is registered:
    400, and the store has seen no statement. *)
Lemma register_validation_before_store_witness :
  fails_validation Samples.short_password /\
  exists message,
    register Samples.toy_hash Samples.short_password Samples.store
    = (Returned {| status := 400; payload := Failure message |}, Samples.store).
Proof.
  assert (H : fails_validation Samples.short_password).
  { right. right. right. right. exists "abc12". split; [reflexivity | simpl; lia]. }
  exact (conj H (register_validation_before_store Samples.toy_hash _ Samples.store H)).
Defined.


Lemma bob_request_valid : passes_validation Samples.bob_request.
Proof.
  exists "bob", "bob@example.com", "hunter22".
  repeat split; try discriminate. simpl. lia.
Defined.

Lemma bob_request_fits :
  Props.fits_columns Samples.toy_hash Samples.bob_request Samples.store.
Proof.
  repeat split; simpl; try lia.
  intros phone [= <-]. simpl. lia.
Defined.


Lemma login_empty_credential_witness :
  login Samples.toy_compare {| l_email := Some "alice@example.com"; l_password := Some "" |}
    Samples.store
  = (Returned {| status := 400;
                 payload := Failure "Email and password are required" |},
     Samples.store).
Proof.
  exact (login_empty_credential Samples.toy_compare
           {| l_email := Some "alice@example.com"; l_password := Some "" |}
           Samples.store (or_intror eq_refl)).
Defined.

(** When the store cannot be reached the lookup throws and the routes
    answer 500; a request that fails validation is still answered 400. *)
Example store_unreachable :
  fst (register Samples.toy_hash Samples.bob_request Samples.unreachable_store)
  = Returned {| status := 500;
                payload := Failure "Internal server error during registration" |}
  /\ fst (login Samples.toy_compare Samples.unknown_login Samples.unreachable_store)
     = Returned {| status := 500;
                   payload := Failure "Internal server error during login" |}
  /\ fst (register Samples.toy_hash Samples.short_password Samples.unreachable_store)
     = Returned {| status := 400;
                   payload := Failure "Password must be at least 6 characters long" |}.
Proof. repeat split. Qed.

(** A login with the right password. *)
Example login_alice :
  fst (login Samples.toy_compare
         {| l_email := Some "alice@example.com"; l_password := Some "wonderland" |}
         Samples.store)
  = Returned {| status := 200;
                payload := Success (LoggedIn "Login successful"
                                      {| pu_id := 1; pu_username := "alice";
                                         pu_email := "alice@example.com";
                                         pu_phone := None |}) |}.
Proof. reflexivity. Qed.

Lemma provided_literal c s : provided (Some (String c s)).
Proof. exists (String c s). split; [reflexivity | discriminate]. Defined.

Lemma login_failures_indistinguishable_witness :
  exists r1 r2,
    fst (login Samples.toy_compare Samples.unknown_login Samples.store) = Returned r1 /\
    fst (login Samples.toy_compare Samples.wrong_password_login Samples.store)
    = Returned r2 /\
    status r1 = 401%Z /\ status r2 = 401%Z /\
    message r1 = message r2 /\
    r1 = r2.
Proof.
  exact (login_failures_indistinguishable Samples.toy_compare
           Samples.unknown_login Samples.wrong_password_login
           Samples.store Samples.store Samples.alice []
           (provided_literal _ _) (provided_literal _ _)
           (provided_literal _ _) (provided_literal _ _)
           eq_refl eq_refl eq_refl eq_refl eq_refl).
Defined.

End AccountRuns.

(* ===================================================================== *)
(** ** The provider client and the catalog routes, further *)
(* ===================================================================== *)

Section CatalogMore.

Import JS Spec Props Movies.

Variable key : option string.
Variable axios_get : calls -> params -> axios_result.

Local Abbreviation fetch_with := (fetchFromOMDB key axios_get).

Lemma unconfigured_key_missing : unconfigured key <-> key_missing key = true.
Proof.
  unfold unconfigured, key_missing. split.
  - intros [-> | [-> | ->]]; reflexivity.
  - destruct key as [[|c s]|]; auto. simpl. intros H.
    right. right. f_equal. apply String.eqb_eq. exact H.
Qed.

(** X1. [fetchFromOMDB] returns a payload exactly when the request resolved
    with that payload and its [Response] is not the string False; then
    the payload is returned as it came. *)
Theorem fetchFromOMDB_returns_iff p log d :
  fst (fetch_with p log) = Returned d <->
  axios_get log (with_key key p) = Resolved (Some d) /\
  Response d <> Some "False".
Proof.
  unfold fetchFromOMDB, Eff.bind, request.
  destruct (axios_get log (with_key key p)) as [e | [data|]]; simpl.
  - split; [discriminate | intros [H _]; discriminate].
  - destruct (strict_eq (Response data) "False") eqn:E; simpl.
    + split; [discriminate |]. intros [[= ->] Hne]. exfalso. apply Hne.
      unfold strict_eq in E. destruct (Response d); [| discriminate].
      apply String.eqb_eq in E. congruence.
    + split.
      * intros [= ->]. split; [reflexivity |]. intros Heq. rewrite Heq in E.
        discriminate.
      * intros [[= ->] _]. reflexivity.
  - split; [discriminate | intros [H _]; discriminate].
Qed.

(** When the provider reports an error with a text of its own, that text
    is the message of the error thrown; without one it is the fixed
    OMDb API Error. *)
Theorem fetchFromOMDB_error_message p log d :
  axios_get log (with_key key p) = Resolved (Some d) ->
  Response d = Some "False" ->
  fst (fetch_with p log)
  = Thrown (match Error d with
            | Some (String c s) => String c s
            | _ => "OMDb API Error"
            end).
Proof.
  intros Hget Hresp. unfold fetchFromOMDB, Eff.bind, request.
  rewrite Hget, Hresp. simpl. destruct (Error d) as [[|c s]|]; reflexivity.
Qed.

Lemma catalog_unconfigured_key_aux log :
  unconfigured key ->
  (forall n, list_route key axios_get n log
             = (Returned {| status := 500;
                            payload := Failure "OMDb API key not configured" |}, log)) /\
  (forall i, movie_by_id key axios_get i log
             = (Returned {| status := 500;
                            payload := Failure "OMDb API key not configured" |}, log)) /\
  (forall q, provided (q_query q) ->
             search key axios_get q log
             = (Returned {| status := 500;
                            payload := Failure "OMDb API key not configured" |}, log)).
Proof.
  intros H. apply unconfigured_key_missing in H. repeat split.
  - intros [| | |]; unfold list_route, popular, top_rated, upcoming, now_playing,
      Eff.try_catch; rewrite H; reflexivity.
  - intros i. unfold movie_by_id, Eff.try_catch. rewrite H. reflexivity.
  - intros q Hq. unfold search, Eff.try_catch.
    rewrite (truthy_provided _ Hq), H. reflexivity.
Qed.

(** X2. Every catalog route that needs the provider answers 500 with the
    configuration message, and sends nothing to the provider, when the
    key is left out, empty or still the placeholder. *)
Theorem catalog_unconfigured_key log :
  unconfigured key ->
  (forall n, list_route key axios_get n log
             = (Returned {| status := 500;
                            payload := Failure "OMDb API key not configured" |}, log)) /\
  (forall i, movie_by_id key axios_get i log
             = (Returned {| status := 500;
                            payload := Failure "OMDb API key not configured" |}, log)) /\
  (forall q, provided (q_query q) ->
             search key axios_get q log
             = (Returned {| status := 500;
                            payload := Failure "OMDb API key not configured" |}, log)).
Proof. apply catalog_unconfigured_key_aux. Qed.

(** The whole run of a list route with a configured key. *)
Lemma list_route_run n log :
  key_missing key = false ->
  list_route key axios_get n log
  = (Returned
       {| status := 200;
          payload :=
            Success
              (MovieList (Dec 1 0) (Dec 1 0)
                 (Dec (Z.of_nat
                         (List.length
                            (filter not_null
                               (map title_slot
                                  (fetch_outcomes key axios_get
                                     (map title_params (titles_of n)) log))))) 0)
                 (filter not_null
                    (map title_slot
                       (fetch_outcomes key axios_get
                          (map title_params (titles_of n)) log)))) |},
     (log ++ map (fun t => with_key key (title_params t)) (titles_of n))%list).
Proof.
  intros H.
  destruct n; unfold list_route, popular, top_rated, upcoming, now_playing,
    Eff.try_catch, Eff.bind; rewrite H; rewrite fetchMoviesByTitles_run;
    reflexivity.
Qed.


Lemma fetch_outcomes_cons p ps log :
  fetch_outcomes key axios_get (p :: ps) log
  = fst (fetch_with p log)
    :: fetch_outcomes key axios_get ps (log ++ [with_key key p])%list.
Proof.
  unfold fetch_outcomes. simpl.
  pose proof (fetch_log key axios_get p log) as Hlog.
  destruct (fetch_with p log) as [o log1]. simpl in *. subst log1.
  destruct (Eff.settle_all (map fetch_with ps) (log ++ [with_key key p])%list).
  reflexivity.
Qed.

Lemma fetch_rejected p log :
  always_rejects axios_get -> exists e, fst (fetch_with p log) = Thrown e.
Proof.
  intros H. destruct (H log (with_key key p)) as [e He].
  exists e. unfold fetchFromOMDB, Eff.bind, request. rewrite He. reflexivity.
Qed.

Lemma outage_no_entries ps log :
  always_rejects axios_get ->
  filter not_null (map title_slot (fetch_outcomes key axios_get ps log)) = [].
Proof.
  intros H. revert log. induction ps as [|p ps IH]; intros log.
  - reflexivity.
  - rewrite fetch_outcomes_cons. destruct (fetch_rejected p log H) as [e ->].
    simpl. apply IH.
Qed.

(** X4. When the provider is down altogether, a list route with a configured
    key still answers 200, with an empty list and [totalResults] 0. *)
Theorem list_route_outage n log :
  key_missing key = false ->
  always_rejects axios_get ->
  fst (list_route key axios_get n log)
  = Returned {| status := 200;
                payload := Success (MovieList (Dec 1 0) (Dec 1 0) (Dec 0 0) []) |}.
Proof.
  intros Hkey Hdown. rewrite (list_route_run n log Hkey). simpl.
  rewrite (outage_no_entries _ _ Hdown). reflexivity.
Qed.

Lemma title_slot_movie o m :
  title_slot o = SMovie m ->
  exists d, o = Returned d /\ has_title d = true /\ m = formatMovie d.
Proof.
  destruct o as [d | e]; simpl; [| discriminate].
  destruct (has_title d) eqn:E; [| discriminate].
  intros [= <-]. exists d. auto.
Qed.

Lemma truthy_is_provided v : truthy v = true -> provided v.
Proof.
  destruct v as [[|c s]|]; simpl; try discriminate.
  intros _. exists (String c s). split; [reflexivity | discriminate].
Qed.

(** X5. Every movie the batch over titles returns has a non-empty title and
    a non-empty id. *)
Theorem fetchMoviesByTitles_titled titles log entries m :
  fst (fetchMoviesByTitles key axios_get titles log) = Returned entries ->
  In (SMovie m) entries ->
  provided (title m) /\ provided (id m).
Proof.
  rewrite fetchMoviesByTitles_run. simpl. intros [= <-] Hin.
  apply filter_In in Hin as [Hin _]. apply in_map_iff in Hin as (o & Ho & _).
  apply title_slot_movie in Ho as (d & _ & Ht & ->). unfold has_title in Ht.
  split; simpl.
  - apply truthy_is_provided. exact Ht.
  - destruct (truthy (imdbID d)) eqn:E; apply truthy_is_provided; assumption.
Qed.

Lemma fetch_history_free p log :
  history_free axios_get -> fst (fetch_with p log) = fst (fetch_with p []).
Proof.
  intros H. unfold fetchFromOMDB, Eff.bind, request.
  rewrite (H log). destruct (axios_get [] (with_key key p)) as [e | [d|]];
    try reflexivity.
  destruct (strict_eq (Response d) "False"); reflexivity.
Qed.

Lemma fetch_outcomes_history_free ps log :
  history_free axios_get ->
  fetch_outcomes key axios_get ps log = map (fun p => fst (fetch_with p [])) ps.
Proof.
  intros H. revert log. induction ps as [|p ps IH]; intros log.
  - reflexivity.
  - rewrite fetch_outcomes_cons, IH, fetch_history_free by assumption.
    reflexivity.
Qed.

(** X6. When the answers of the provider do not depend on the order of the
    requests, what [/now_playing] lists is the beginning of what
    [/popular] lists. *)
Theorem now_playing_prefix_of_popular log log' :
  key_missing key = false ->
  history_free axios_get ->
  exists first rest,
    fst (now_playing key axios_get log)
    = Returned {| status := 200;
                  payload := Success (MovieList (Dec 1 0) (Dec 1 0)
                                        (Dec (Z.of_nat (List.length first)) 0)
                                        first) |} /\
    fst (popular key axios_get log')
    = Returned {| status := 200;
                  payload := Success (MovieList (Dec 1 0) (Dec 1 0)
                                        (Dec (Z.of_nat (List.length (first ++ rest))) 0)
                                        (first ++ rest)%list) |}.
Proof.
  intros Hkey Hfree.
  change (now_playing key axios_get) with (list_route key axios_get NowPlaying).
  change (popular key axios_get) with (list_route key axios_get Popular).
  rewrite !list_route_run by assumption. simpl fst.
  rewrite !fetch_outcomes_history_free by assumption.
  set (entry := fun t => title_slot (fst (fetch_with (title_params t) []))).
  exists (filter not_null (map entry (firstn 8 MOVIE_LISTS_popular))),
         (filter not_null (map entry (skipn 8 MOVIE_LISTS_popular))).
  rewrite <- filter_app, <- map_app, firstn_skipn.
  unfold titles_of. rewrite !map_map. split; reflexivity.
Qed.

Lemma search_failure_run (q : search_query) log e :
  provided (q_query q) ->
  key_missing key = false ->
  fst (fetch_with (search_params (ToString (q_query q)) (q_page q)) log) = Thrown e ->
  search key axios_get q log
  = (Returned {| status := 500; payload := Failure "Failed to search movies" |},
     (log ++ [with_key key (search_params (ToString (q_query q)) (q_page q))])%list).
Proof.
  intros Hq Hkey Hfail.
  pose proof (fetch_log key axios_get
                (search_params (ToString (q_query q)) (q_page q)) log) as Hlog.
  unfold search, Eff.try_catch, Eff.bind at 1.
  rewrite (truthy_provided _ Hq), Hkey. cbn [negb]. cbv beta iota.
  destruct (fetch_with (search_params (ToString (q_query q)) (q_page q)) log)
    as [o log1]. simpl in *. subst o log1. reflexivity.
Qed.

(** X7. When the search request itself fails, in any way, the search route
    answers 500 with its fixed message, and no detail request is made. *)
Theorem search_provider_failure (q : search_query) log e :
  provided (q_query q) ->
  key_missing key = false ->
  fst (fetch_with (search_params (ToString (q_query q)) (q_page q)) log) = Thrown e ->
  search key axios_get q log
  = (Returned {| status := 500; payload := Failure "Failed to search movies" |},
     (log ++ [with_key key (search_params (ToString (q_query q)) (q_page q))])%list).
Proof. apply search_failure_run. Qed.

(** The whole run of a search whose search request succeeds. *)
Lemma search_run (q : search_query) log searchData :
  provided (q_query q) ->
  key_missing key = false ->
  fst (fetch_with (search_params (ToString (q_query q)) (q_page q)) log)
  = Returned searchData ->
  search key axios_get q log
  = (Returned
       {| status := 200;
          payload :=
            Success
              (MovieList
                 (or_num (parseInt (ToString (q_page q))) (Dec 1 0))
                 (Math_ceil (total_over_10 searchData))
                 (or_num (parseInt (ToString (totalResults searchData))) (Dec 0 0))
                 (map SMovie
                    (map formatMovie
                       (returned
                          (fetch_outcomes key axios_get
                             (map (fun h => id_params (hit_imdbID h))
                                (firstn 8 (hits_of searchData)))
                             (log ++ [with_key key
                                        (search_params (ToString (q_query q))
                                           (q_page q))])%list))))) |},
     (log ++ with_key key (search_params (ToString (q_query q)) (q_page q))
          :: map (fun h => with_key key (id_params (hit_imdbID h)))
               (firstn 8 (hits_of searchData)))%list).
Proof.
  intros Hq Hkey Hok.
  pose proof (fetch_log key axios_get
                (search_params (ToString (q_query q)) (q_page q)) log) as Hlog.
  unfold search, Eff.try_catch, Eff.bind at 1.
  rewrite (truthy_provided _ Hq), Hkey. cbn [negb]. cbv beta iota.
  destruct (fetch_with (search_params (ToString (q_query q)) (q_page q)) log)
    as [o log1]. simpl in Hok, Hlog. subst o log1.
  unfold Eff.bind, hits_of. destruct (Search searchData) as [hits|].
  - rewrite search_details_run, hit_slots_movies. unfold send, Eff.ret.
    rewrite <- app_assoc. reflexivity.
  - reflexivity.
Qed.

Lemma returned_length {A} (os : list (outcome A)) :
  (List.length (returned os) <= List.length os)%nat.
Proof. induction os as [|[a | e] os IH]; simpl; lia. Qed.

Lemma fetch_outcomes_length ps log :
  List.length (fetch_outcomes key axios_get ps log) = List.length ps.
Proof.
  revert log. induction ps as [|p ps IH]; intros log; [reflexivity |].
  rewrite fetch_outcomes_cons. simpl. rewrite IH. reflexivity.
Qed.

(** X8. Once the search request has succeeded the search route answers 200,
    whatever becomes of the detail requests. Every entry of the list it
    sends is a movie, and there are at most eight of them and at most as
    many as the search had hits. *)
Theorem search_entries_bounded (q : search_query) log searchData :
  provided (q_query q) ->
  key_missing key = false ->
  fst (fetch_with (search_params (ToString (q_query q)) (q_page q)) log)
  = Returned searchData ->
  exists page totalPages total entries,
    fst (search key axios_get q log)
    = Returned {| status := 200;
                  payload := Success (MovieList page totalPages total entries) |} /\
    Forall is_movie entries /\
    (List.length entries <= 8)%nat /\
    (List.length entries <= List.length (hits_of searchData))%nat.
Proof.
  intros Hq Hkey Hok. rewrite (search_run q log searchData Hq Hkey Hok).
  do 4 eexists. split; [reflexivity |].
  set (os := fetch_outcomes _ _ _ _).
  assert (Hlen : (List.length (returned os)
                  <= List.length (firstn 8 (hits_of searchData)))%nat).
  { etransitivity; [apply returned_length |]. unfold os.
    rewrite fetch_outcomes_length, length_map. reflexivity. }
  rewrite !length_map. repeat split.
  - apply Forall_forall. intros x Hx. apply in_map_iff in Hx as (m & <- & _).
    exists m. reflexivity.
  - etransitivity; [exact Hlen | apply firstn_le_length].
  - etransitivity; [exact Hlen |]. rewrite length_firstn. lia.
Qed.

(** X9. The page of a search answer: 1 when the request names no page, and
    max(1, n) when it names the decimal [n] of a safe integer; page 0 is
    answered as page 1. *)
Theorem search_page_echo (q : search_query) log searchData :
  provided (q_query q) ->
  key_missing key = false ->
  fst (fetch_with (search_params (ToString (q_query q)) (q_page q)) log)
  = Returned searchData ->
  exists page totalPages total entries,
    fst (search key axios_get q log)
    = Returned {| status := 200;
                  payload := Success (MovieList page totalPages total entries) |} /\
    (q_page q = None -> page = Dec 1 0) /\
    (forall n, (n <= MAX_SAFE_INTEGER)%N -> q_page q = Some (decimal n) ->
               page = Dec (Z.max 1 (Z.of_N n)) 0).
Proof.
  intros Hq Hkey Hok. rewrite (search_run q log searchData Hq Hkey Hok).
  do 4 eexists. split; [reflexivity |]. split.
  - intros ->. reflexivity.
  - intros n Hsafe ->. simpl ToString. rewrite parseInt_decimal.
    unfold or_num, truthy_num. destruct n as [|n']; simpl; [reflexivity |].
    f_equal. lia.
Qed.

Lemma movie_by_id_run i log :
  key_missing key = false ->
  (forall d, fst (fetch_with (id_params (Some i)) log) = Returned d ->
     movie_by_id key axios_get i log
     = (Returned {| status := 200;
                    payload := Success (MovieDetail (formatMovie d)) |},
        (log ++ [with_key key (id_params (Some i))])%list)) /\
  (forall e, fst (fetch_with (id_params (Some i)) log) = Thrown e ->
     movie_by_id key axios_get i log
     = (Returned {| status := 500;
                    payload := Failure "Failed to fetch movie details" |},
        (log ++ [with_key key (id_params (Some i))])%list)).
Proof.
  intros Hkey.
  pose proof (fetch_log key axios_get (id_params (Some i)) log) as Hlog.
  unfold movie_by_id, Eff.try_catch, Eff.bind. rewrite Hkey.
  destruct (fetch_with (id_params (Some i)) log) as [o log1].
  simpl in Hlog. subst log1. split; simpl; intros x ->; reflexivity.
Qed.

(** X10. The detail route makes one request for the id. A payload that comes
    back is normalized and sent with 200, titled or not; any failure of
    the call, whatever its kind and message, gives the same 500 with the
    fixed message. *)
Theorem movie_by_id_outcomes i log :
  key_missing key = false ->
  (forall d, fst (fetch_with (id_params (Some i)) log) = Returned d ->
     movie_by_id key axios_get i log
     = (Returned {| status := 200;
                    payload := Success (MovieDetail (formatMovie d)) |},
        (log ++ [with_key key (id_params (Some i))])%list)) /\
  (forall e, fst (fetch_with (id_params (Some i)) log) = Thrown e ->
     movie_by_id key axios_get i log
     = (Returned {| status := 500;
                    payload := Failure "Failed to fetch movie details" |},
        (log ++ [with_key key (id_params (Some i))])%list)).
Proof. apply movie_by_id_run. Qed.

Lemma catalog_route_answers_aux (r : catalog_request) log :
  exists answer,
    fst (catalog_route key axios_get r log) = Returned answer /\
    (success answer = true <-> status answer = 200%Z) /\
    (status answer = 200%Z \/ status answer = 400%Z \/ status answer = 500%Z) /\
    (forall message, payload answer = Failure message ->
                     In message catalog_messages).
Proof.
  assert (Hfail : forall (code : Z) message,
             (code = 400%Z \/ code = 500%Z) -> In message catalog_messages ->
             let answer := {| status := code;
                              payload := @Failure catalog message |} in
             (success answer = true <-> status answer = 200%Z) /\
             (status answer = 200%Z \/ status answer = 400%Z
              \/ status answer = 500%Z) /\
             (forall m, payload answer = Failure m -> In m catalog_messages)).
  { intros code message Hcode Hin. simpl. repeat split.
    - discriminate.
    - intros ->. destruct Hcode; discriminate.
    - destruct Hcode; auto.
    - intros m [= <-]. exact Hin. }
  assert (Hok : forall p,
             let answer := {| status := 200; payload := @Success catalog p |} in
             (success answer = true <-> status answer = 200%Z) /\
             (status answer = 200%Z \/ status answer = 400%Z
              \/ status answer = 500%Z) /\
             (forall m, payload answer = Failure m -> In m catalog_messages)).
  { intros p. simpl. repeat split; auto. discriminate. }
  destruct r as [n | q | i]; unfold catalog_route.
  - destruct (key_missing key) eqn:Hkey.
    + apply unconfigured_key_missing in Hkey.
      destruct (catalog_unconfigured_key_aux log Hkey) as (Hlist & _).
      rewrite Hlist. eexists. split; [reflexivity |].
      apply Hfail; simpl; auto.
    + rewrite (list_route_run n log Hkey). eexists. split; [reflexivity |].
      apply Hok.
  - destruct (truthy (q_query q)) eqn:Hq.
    + apply truthy_is_provided in Hq.
      destruct (key_missing key) eqn:Hkey.
      * apply unconfigured_key_missing in Hkey.
        destruct (catalog_unconfigured_key_aux log Hkey) as (_ & _ & Hsearch).
        rewrite (Hsearch q Hq). eexists. split; [reflexivity |].
        apply Hfail; simpl; auto.
      * destruct (fst (fetch_with (search_params (ToString (q_query q)) (q_page q))
                         log)) as [d | e] eqn:Hfetch.
        -- rewrite (search_run q log d Hq Hkey Hfetch). eexists.
           split; [reflexivity |]. apply Hok.
        -- rewrite (search_failure_run q log e Hq Hkey Hfetch). eexists.
           split; [reflexivity |]. apply Hfail; simpl; auto.
    + unfold search, Eff.try_catch. rewrite Hq. eexists.
      split; [reflexivity |]. apply Hfail; simpl; auto.
  - destruct (key_missing key) eqn:Hkey.
    + apply unconfigured_key_missing in Hkey.
      destruct (catalog_unconfigured_key_aux log Hkey) as (_ & Hid & _).
      rewrite Hid. eexists. split; [reflexivity |].
      apply Hfail; simpl; auto.
    + destruct (movie_by_id_run i log Hkey) as [Hgood Hbad].
      destruct (fst (fetch_with (id_params (Some i)) log)) as [d | e] eqn:Hfetch.
      * rewrite (Hgood d eq_refl). eexists. split; [reflexivity |]. apply Hok.
      * rewrite (Hbad e eq_refl). eexists. split; [reflexivity |].
        apply Hfail; simpl; auto 10.
Qed.

(** X11. No catalog route ever throws: each request is answered, with status
    200, 400 or 500; the answer is a success exactly when the status is
    200; and a failure carries one of the fixed messages of the routes,
    never a text that came from the provider or the network. *)
Theorem catalog_route_answers (r : catalog_request) log :
  exists answer,
    fst (catalog_route key axios_get r log) = Returned answer /\
    (success answer = true <-> status answer = 200%Z) /\
    (status answer = 200%Z \/ status answer = 400%Z \/ status answer = 500%Z) /\
    (forall message, payload answer = Failure message ->
                     In message catalog_messages).
Proof. apply catalog_route_answers_aux. Qed.

End CatalogMore.

(** *** The catalog theorems at concrete requests *)

Section CatalogRuns.

Import JS Spec Props Movies.

Lemma outage_always_rejects : always_rejects Cases.outage.
Proof. intros log p. exists "connect ETIMEDOUT". reflexivity. Defined.

Lemma provider_history_free : history_free Samples.provider.
Proof. intros log p. reflexivity. Defined.

Lemma batman_provided : provided (q_query Cases.batman_query).
Proof. exists "batman". split; [reflexivity | discriminate]. Defined.

(** No key at all: the popular list and a search are refused with 500
    before any request. *)
Lemma catalog_unconfigured_key_witness :
  list_route None Samples.provider Popular []
  = (Returned {| status := 500;
                 payload := Failure "OMDb API key not configured" |}, []) /\
  search None Samples.provider Cases.batman_query []
  = (Returned {| status := 500;
                 payload := Failure "OMDb API key not configured" |}, []).
Proof.
  destruct (catalog_unconfigured_key None Samples.provider [] (or_introl eq_refl))
    as (Hlist & _ & Hsearch).
  exact (conj (Hlist Popular) (Hsearch Cases.batman_query batman_provided)).
Defined.


Lemma list_route_outage_witness :
  fst (list_route Samples.some_key Cases.outage Popular [])
  = Returned {| status := 200;
                payload := Success (MovieList (Dec 1 0) (Dec 1 0) (Dec 0 0) []) |}.
Proof.
  exact (list_route_outage Samples.some_key Cases.outage Popular [] eq_refl
           outage_always_rejects).
Defined.

Lemma fetchMoviesByTitles_titled_witness :
  provided (title (formatMovie (Samples.titled "A"))) /\
  provided (id (formatMovie (Samples.titled "A"))).
Proof.
  exact (fetchMoviesByTitles_titled Samples.some_key Samples.provider ["A"] []
           [SMovie (formatMovie (Samples.titled "A"))]
           (formatMovie (Samples.titled "A")) eq_refl (or_introl eq_refl)).
Defined.

Lemma now_playing_prefix_of_popular_witness :
  exists first rest,
    fst (now_playing Samples.some_key Samples.provider [])
    = Returned {| status := 200;
                  payload := Success (MovieList (Dec 1 0) (Dec 1 0)
                                        (Dec (Z.of_nat (List.length first)) 0)
                                        first) |} /\
    fst (popular Samples.some_key Samples.provider [])
    = Returned {| status := 200;
                  payload := Success (MovieList (Dec 1 0) (Dec 1 0)
                                        (Dec (Z.of_nat (List.length (first ++ rest))) 0)
                                        (first ++ rest)%list) |}.
Proof.
  exact (now_playing_prefix_of_popular Samples.some_key Samples.provider [] []
           eq_refl provider_history_free).
Defined.

Lemma search_provider_failure_witness :
  search Samples.some_key Cases.knows_nothing Cases.batman_query []
  = (Returned {| status := 500; payload := Failure "Failed to search movies" |},
     ([] ++ [with_key Samples.some_key (search_params "batman" (Some "2"))])%list).
Proof.
  exact (search_provider_failure Samples.some_key Cases.knows_nothing
           Cases.batman_query [] "Movie not found!" batman_provided eq_refl eq_refl).
Defined.

Lemma search_entries_bounded_witness :
  exists page totalPages total entries,
    fst (search Samples.some_key Samples.provider Cases.batman_query [])
    = Returned {| status := 200;
                  payload := Success (MovieList page totalPages total entries) |} /\
    Forall is_movie entries /\
    (List.length entries <= 8)%nat /\
    (List.length entries <= List.length (hits_of Samples.search_page))%nat.
Proof.
  exact (search_entries_bounded Samples.some_key Samples.provider
           Cases.batman_query [] Samples.search_page batman_provided
           eq_refl eq_refl).
Defined.

Lemma search_page_echo_witness :
  exists page totalPages total entries,
    fst (search Samples.some_key Samples.provider Cases.batman_query [])
    = Returned {| status := 200;
                  payload := Success (MovieList page totalPages total entries) |} /\
    page = Dec 2 0.
Proof.
  destruct (search_page_echo Samples.some_key Samples.provider
              Cases.batman_query [] Samples.search_page batman_provided
              eq_refl eq_refl)
    as (page & totalPages & total & entries & Hrun & _ & Hpage).
  exists page, totalPages, total, entries.
  assert (Hsafe : (2 <= MAX_SAFE_INTEGER)%N) by discriminate.
  exact (conj Hrun (Hpage 2%N Hsafe eq_refl)).
Defined.

Lemma movie_by_id_outcomes_witness :
  movie_by_id Samples.some_key Samples.provider "tt01" []
  = (Returned {| status := 200;
                 payload := Success (MovieDetail (formatMovie Samples.untitled)) |},
     ([] ++ [with_key Samples.some_key (id_params (Some "tt01"))])%list) /\
  movie_by_id Samples.some_key Cases.outage "tt01" []
  = (Returned {| status := 500;
                 payload := Failure "Failed to fetch movie details" |},
     ([] ++ [with_key Samples.some_key (id_params (Some "tt01"))])%list).
Proof.
  exact (conj
           (proj1 (movie_by_id_outcomes Samples.some_key Samples.provider "tt01" []
                     eq_refl) Samples.untitled eq_refl)
           (proj2 (movie_by_id_outcomes Samples.some_key Cases.outage "tt01" []
                     eq_refl) "connect ETIMEDOUT" eq_refl)).
Defined.

End CatalogRuns.

(* ===================================================================== *)
(** ** The account routes, further *)
(* ===================================================================== *)

Section AccountsMore.

Import JS Spec Props Auth.

Variable bcrypt_hash : string -> Z -> string.
Variable bcrypt_compare : string -> string -> bool.

(** The whole run of a registration that fails a local check. *)
Lemma register_invalid_run (b : register_body) (d : db) :
  fails_validation b ->
  exists message,
    In message account_messages /\
    register bcrypt_hash b d
    = (Returned {| status := 400; payload := Failure message |}, d).
Proof.
  intros H. apply fails_validation_checks in H.
  unfold register, Eff.try_catch.
  destruct (negb (truthy (r_username b)) || negb (truthy (r_email b))
            || negb (truthy (r_password b))) eqn:E1.
  { eexists. split; [| reflexivity]. simpl. auto. }
  destruct (emailRegex_test (ToString (r_email b))) eqn:E2; simpl negb; cbv iota.
  2:{ eexists. split; [| reflexivity]. simpl. auto. }
  destruct (String.length (ToString (r_password b)) <? 6)%nat eqn:E3.
  { eexists. split; [| reflexivity]. simpl. auto. }
  destruct H as [H | [H | H]]; discriminate.
Qed.

(** The whole run of a valid registration when the store is down. *)
Lemma register_offline_run (b : register_body) (d : db) :
  passes_validation b ->
  online d = false ->
  register bcrypt_hash b d
  = (Returned {| status := 500;
                 payload := Failure "Internal server error during registration" |},
     issue (SelectIdByEmail (ToString (r_email b))) d).
Proof.
  intros Hv Hoff.
  destruct (passes_validation_checks b Hv) as (Hu & He & Hp & Hre & Hlen).
  unfold register, Eff.try_catch, Eff.bind.
  rewrite Hu, He, Hp, Hre, Hlen. cbn [negb orb]. cbv beta iota.
  unfold select_id_by_email. rewrite Hoff. reflexivity.
Qed.

(** The four ways a registration can go. *)
Lemma register_cases (b : register_body) (d : db) :
  (exists message,
      In message account_messages /\
      register bcrypt_hash b d
      = (Returned {| status := 400; payload := Failure message |}, d)) \/
  (register bcrypt_hash b d
   = (Returned {| status := 500;
                  payload := Failure "Internal server error during registration" |},
      issue (SelectIdByEmail (ToString (r_email b))) d)) \/
  (register bcrypt_hash b d
   = (Returned {| status := 409; payload := Failure "Email already registered" |},
      issue (SelectIdByEmail (ToString (r_email b))) d)) \/
  (by_email (ToString (r_email b)) d = [] /\
   register bcrypt_hash b d
   = (Returned {| status := 201;
                  payload := Success (Registered "User registered successfully"
                                        (next_id d)) |},
      {| rows := (rows d ++
                  [ {| u_id := next_id d;
                       u_username := ToString (r_username b);
                       u_email := ToString (r_email b);
                       u_password := bcrypt_hash (ToString (r_password b)) SALT_ROUNDS;
                       u_phone := if truthy (r_phone b) then r_phone b else None |} ])%list;
         next_id := next_id d + 1;
         online := online d;
         issued := (issued d ++
                    [ SelectIdByEmail (ToString (r_email b));
                      InsertUser (ToString (r_username b)) (ToString (r_email b))
                        (bcrypt_hash (ToString (r_password b)) SALT_ROUNDS)
                        (if truthy (r_phone b) then r_phone b else None) ])%list |})).
Proof.
  destruct (validation_decides b) as [Hv | Hf].
  - destruct (online d) eqn:Hon.
    + destruct (by_email (ToString (r_email b)) d) as [|u us] eqn:Hrows.
      * right. right. right. split; [reflexivity |].
        rewrite (register_created_run bcrypt_hash b d Hv Hon Hrows), Hon.
        reflexivity.
      * right. right. left. apply register_conflict_run; try assumption.
        rewrite Hrows. discriminate.
    + right. left. apply register_offline_run; assumption.
  - left. apply register_invalid_run. exact Hf.
Qed.

Lemma by_email_nil_not_in email d :
  by_email email d = [] -> ~ In email (map u_email (rows d)).
Proof.
  unfold by_email. intros Hnil Hin. apply in_map_iff in Hin as (u & Hu & Hin).
  assert (Hf : In u (filter (fun u => String.eqb (u_email u) email) (rows d))).
  { apply filter_In. split; [exact Hin |]. apply String.eqb_eq. exact Hu. }
  rewrite Hnil in Hf. exact Hf.
Qed.

Lemma NoDup_snoc {A} (l : list A) (a : A) :
  NoDup l -> ~ In a l -> NoDup (l ++ [a]).
Proof.
  induction l as [|x l IH]; intros Hl Ha; simpl.
  - constructor; [intros [] | constructor].
  - inversion Hl; subst. constructor.
    + rewrite in_app_iff. intros [H | [<- | []]]; [auto |].
      apply Ha. left. reflexivity.
    + apply IH; [assumption |]. intros H. apply Ha. right. exact H.
Qed.

(** X12. Registration keeps the store well formed, whatever the request and
    however it is answered: emails and ids stay unique, and every id
    stays below the next one to be assigned. *)
Theorem register_keeps_well_formed (b : register_body) (d : db) :
  well_formed d -> well_formed (snd (register bcrypt_hash b d)).
Proof.
  intros (Hemails & Hids & Hbelow).
  destruct (register_cases b d) as [(m & _ & ->) | [-> | [-> | [Hfresh ->]]]];
    try (repeat split; assumption).
  unfold well_formed. simpl. rewrite !map_app. simpl. repeat split.
  - apply NoDup_snoc; [exact Hemails |]. apply by_email_nil_not_in. exact Hfresh.
  - apply NoDup_snoc; [exact Hids |]. intros Hin.
    apply in_map_iff in Hin as (u & Hu & Hin).
    rewrite Forall_forall in Hbelow. specialize (Hbelow u Hin). lia.
  - apply Forall_app. split.
    + eapply Forall_impl; [| exact Hbelow]. simpl. intros u Hu. lia.
    + repeat constructor. simpl. lia.
Qed.

(** X13. A registration appends a row exactly when it is answered with 201;
    with any other answer the table is what it was. It never throws. *)
Theorem register_row_iff_created (b : register_body) (d : db) :
  exists answer,
    fst (register bcrypt_hash b d) = Returned answer /\
    ((status answer = 201%Z /\
      exists row, rows (snd (register bcrypt_hash b d)) = (rows d ++ [row])%list /\
                  payload answer
                  = Success (Registered "User registered successfully" (u_id row)))
     \/
     (status answer <> 201%Z /\ success answer = false /\
      rows (snd (register bcrypt_hash b d)) = rows d /\
      next_id (snd (register bcrypt_hash b d)) = next_id d)).
Proof.
  destruct (register_cases b d) as [(m & _ & ->) | [-> | [-> | [Hfresh ->]]]];
    eexists; (split; [reflexivity |]); simpl.
  - right. repeat split. discriminate.
  - right. repeat split. discriminate.
  - right. repeat split. discriminate.
  - left. split; [reflexivity |]. eexists. split; reflexivity.
Qed.

(** The ways a login can go. *)
Lemma login_cases (b : login_body) (d : db) :
  (login bcrypt_compare b d
   = (Returned {| status := 400;
                  payload := Failure "Email and password are required" |}, d)) \/
  (exists answer,
      login bcrypt_compare b d
      = (Returned answer, issue (SelectUserByEmail (ToString (l_email b))) d) /\
      provided (l_email b) /\ provided (l_password b) /\
      ((online d = false /\
        answer = {| status := 500;
                    payload := Failure "Internal server error during login" |}) \/
       (online d = true /\
        (by_email (ToString (l_email b)) d = [] \/
         exists user others,
           by_email (ToString (l_email b)) d = user :: others /\
           bcrypt_compare (ToString (l_password b)) (u_password user) = false) /\
        answer = {| status := 401;
                    payload := Failure "Invalid email or password" |}) \/
       (online d = true /\
        exists user others,
          by_email (ToString (l_email b)) d = user :: others /\
          bcrypt_compare (ToString (l_password b)) (u_password user) = true /\
          answer = {| status := 200;
                      payload := Success (LoggedIn "Login successful"
                                            (without_password user)) |}))).
Proof.
  unfold login, Eff.try_catch, Eff.bind.
  destruct (truthy (l_email b)) eqn:He; [| left; reflexivity].
  destruct (truthy (l_password b)) eqn:Hp; [| left; reflexivity].
  right. cbn [negb orb]. cbv beta iota. unfold select_user_by_email.
  apply truthy_is_provided in He, Hp.
  destruct (online d) eqn:Hon.
  - destruct (by_email (ToString (l_email b)) d) as [|user others] eqn:Hrows.
    + eexists. split; [reflexivity |]. repeat split; try assumption.
      right. left. auto.
    + destruct (bcrypt_compare (ToString (l_password b)) (u_password user)) eqn:Hc.
      * eexists. split; [reflexivity |]. repeat split; try assumption.
        right. right. split; [reflexivity |]. exists user, others. auto.
      * eexists. split; [reflexivity |]. repeat split; try assumption.
        right. left. split; [reflexivity |]. split; [| reflexivity].
        right. exists user, others. auto.
  - eexists. split; [reflexivity |]. repeat split; try assumption.
    left. auto.
Qed.

(** X14. A login never writes: the table, the next id and the state of the
    connection are what they were, and the only statement it can issue
    is the one lookup by the email given. *)
Theorem login_reads_only (b : login_body) (d : db) :
  rows (snd (login bcrypt_compare b d)) = rows d /\
  next_id (snd (login bcrypt_compare b d)) = next_id d /\
  online (snd (login bcrypt_compare b d)) = online d /\
  (issued (snd (login bcrypt_compare b d)) = issued d \/
   issued (snd (login bcrypt_compare b d))
   = (issued d ++ [SelectUserByEmail (ToString (l_email b))])%list).
Proof.
  destruct (login_cases b d) as [-> | (answer & -> & _)]; simpl; auto.
Qed.

Lemma by_email_snoc email d' rows0 row :
  rows d' = (rows0 ++ [row])%list ->
  u_email row = email ->
  by_email email d'
  = (filter (fun u => String.eqb (u_email u) email) rows0 ++ [row])%list.
Proof.
  intros Hrows Hrow. unfold by_email. rewrite Hrows, filter_app. simpl.
  rewrite Hrow, String.eqb_refl. reflexivity.
Qed.

(** The whole run of a login with the right password. *)
Lemma login_success_run (b : login_body) (d : db) user others :
  provided (l_email b) -> provided (l_password b) ->
  online d = true ->
  by_email (ToString (l_email b)) d = user :: others ->
  bcrypt_compare (ToString (l_password b)) (u_password user) = true ->
  login bcrypt_compare b d
  = (Returned {| status := 200;
                 payload := Success (LoggedIn "Login successful"
                                       (without_password user)) |},
     issue (SelectUserByEmail (ToString (l_email b))) d).
Proof.
  intros He Hp Hon Hrows Hcmp. unfold login, Eff.try_catch, Eff.bind.
  rewrite (truthy_provided _ He), (truthy_provided _ Hp). cbn [negb orb].
  cbv beta iota. unfold select_user_by_email. rewrite Hon, Hrows, Hcmp.
  reflexivity.
Qed.

(** X15. Register, then log in. After a registration that is answered with
    201, a login with the same email and password against the resulting
    store is answered with 200 and the new account: the id the
    registration returned, the username, the email, and the phone or
    null. This needs of bcrypt only that a password compares equal to its
    own hash, and of the request that its values fit the columns of the
    table. *)
Theorem register_then_login (b : register_body) (d : db) :
  passes_validation b ->
  online d = true ->
  by_email (ToString (r_email b)) d = [] ->
  fits_columns bcrypt_hash b d ->
  bcrypt_compare (ToString (r_password b))
    (bcrypt_hash (ToString (r_password b)) SALT_ROUNDS) = true ->
  fst (register bcrypt_hash b d)
  = Returned {| status := 201;
                payload := Success (Registered "User registered successfully"
                                      (next_id d)) |} /\
  fst (login bcrypt_compare
         {| l_email := r_email b; l_password := r_password b |}
         (snd (register bcrypt_hash b d)))
  = Returned {| status := 200;
                payload :=
                  Success (LoggedIn "Login successful"
                             {| pu_id := next_id d;
                                pu_username := ToString (r_username b);
                                pu_email := ToString (r_email b);
                                pu_phone := if truthy (r_phone b)
                                            then r_phone b else None |}) |}.
Proof.
  intros Hv Hon Hfresh Hfits Hcmp.
  rewrite (register_created_run bcrypt_hash b d Hv Hon Hfresh). simpl fst.
  split; [reflexivity |].
  destruct (passes_validation_checks b Hv) as (_ & He & Hp & _ & _).
  apply truthy_is_provided in He, Hp.
  simpl snd.
  lazymatch goal with
  | |- fst (login _ ?lb ?d') = _ =>
      assert (Hlook : exists row,
                 by_email (ToString (l_email lb)) d' = [row] /\
                 u_password row = bcrypt_hash (ToString (r_password b)) SALT_ROUNDS /\
                 without_password row
                 = {| pu_id := next_id d;
                      pu_username := ToString (r_username b);
                      pu_email := ToString (r_email b);
                      pu_phone := if truthy (r_phone b) then r_phone b else None |})
  end.
  { eexists. split.
    - cbn [l_email]. erewrite by_email_snoc; [| reflexivity | reflexivity].
      unfold by_email in Hfresh. rewrite Hfresh. reflexivity.
    - split; reflexivity. }
  destruct Hlook as (row & Hlook & Hpw & Hpub).
  erewrite login_success_run; [| exact He | exact Hp | exact Hon | exact Hlook |].
  - simpl fst. rewrite Hpub. reflexivity.
  - rewrite Hpw. exact Hcmp.
Qed.

(** X16. Register the same email twice. After a registration whose values
    fit the columns of the table and that is answered with 201, any
    valid registration with the same email is answered with 409 and
    leaves the table as the first one left it. *)
Theorem register_twice_conflicts (b b' : register_body) (d : db) :
  passes_validation b ->
  passes_validation b' ->
  r_email b' = r_email b ->
  online d = true ->
  by_email (ToString (r_email b)) d = [] ->
  fits_columns bcrypt_hash b d ->
  fst (register bcrypt_hash b d)
  = Returned {| status := 201;
                payload := Success (Registered "User registered successfully"
                                      (next_id d)) |} /\
  fst (register bcrypt_hash b' (snd (register bcrypt_hash b d)))
  = Returned {| status := 409; payload := Failure "Email already registered" |} /\
  rows (snd (register bcrypt_hash b' (snd (register bcrypt_hash b d))))
  = rows (snd (register bcrypt_hash b d)).
Proof.
  intros Hv Hv' Hsame Hon Hfresh Hfits.
  rewrite (register_created_run bcrypt_hash b d Hv Hon Hfresh). simpl fst.
  split; [reflexivity |]. simpl snd.
  rewrite register_conflict_run; try assumption.
  - split; reflexivity.
  - rewrite Hsame. erewrite by_email_snoc; [| reflexivity | reflexivity].
    intros H. apply app_eq_nil in H as [_ H]. discriminate.
Qed.

(** X17. A login that gives an email and a password, against a store that can
    be reached, succeeds exactly when the email has a row and the
    password matches the hash of the first such row; then the answer is
    that row without its password, and otherwise it is the 401. *)
Theorem login_succeeds_iff (b : login_body) (d : db) :
  provided (l_email b) -> provided (l_password b) ->
  online d = true ->
  exists answer,
    fst (login bcrypt_compare b d) = Returned answer /\
    (success answer = true <->
     exists user others,
       by_email (ToString (l_email b)) d = user :: others /\
       bcrypt_compare (ToString (l_password b)) (u_password user) = true) /\
    (forall user others,
       by_email (ToString (l_email b)) d = user :: others ->
       bcrypt_compare (ToString (l_password b)) (u_password user) = true ->
       answer = {| status := 200;
                   payload := Success (LoggedIn "Login successful"
                                         (without_password user)) |}) /\
    (success answer = false ->
     answer = {| status := 401; payload := Failure "Invalid email or password" |}).
Proof.
  intros He Hp Hon.
  destruct (by_email (ToString (l_email b)) d) as [|user others] eqn:Hrows.
  - rewrite (login_unknown_email_run bcrypt_compare b d He Hp Hon Hrows).
    eexists. split; [reflexivity |]. repeat split; try discriminate.
    intros (u & us & Hu & _). discriminate.
  - destruct (bcrypt_compare (ToString (l_password b)) (u_password user)) eqn:Hc.
    + rewrite (login_success_run b d user others He Hp Hon Hrows Hc).
      eexists. split; [reflexivity |]. repeat split; try discriminate.
      * intros _. exists user, others. auto.
      * intros u us [= <- <-] _. reflexivity.
    + rewrite (login_wrong_password_run bcrypt_compare b d user others
                 He Hp Hon Hrows Hc).
      eexists. split; [reflexivity |]. repeat split; try discriminate.
      * intros (u & us & [= <- <-] & Hu). congruence.
      * intros u us [= <- <-] Hu. congruence.
Qed.

(** X18. When the store cannot be reached, a valid registration and a login
    with both fields are answered with 500 and the fixed message of the
    route; the lookup was attempted and nothing else, and the table is
    what it was. *)
Theorem accounts_store_unreachable (d : db) :
  online d = false ->
  (forall b, passes_validation b ->
     register bcrypt_hash b d
     = (Returned {| status := 500;
                    payload := Failure "Internal server error during registration" |},
        issue (SelectIdByEmail (ToString (r_email b))) d)) /\
  (forall b, provided (l_email b) -> provided (l_password b) ->
     login bcrypt_compare b d
     = (Returned {| status := 500;
                    payload := Failure "Internal server error during login" |},
        issue (SelectUserByEmail (ToString (l_email b))) d)).
Proof.
  intros Hoff. split.
  - intros b Hv. apply register_offline_run; assumption.
  - intros b He Hp. unfold login, Eff.try_catch, Eff.bind.
    rewrite (truthy_provided _ He), (truthy_provided _ Hp). cbn [negb orb].
    cbv beta iota. unfold select_user_by_email. rewrite Hoff. reflexivity.
Qed.

(** X19. Neither account route ever throws. A registration is answered with
    201, 400, 409 or 500 and is a success exactly at 201; a login is
    answered with 200, 400, 401 or 500 and is a success exactly at 200;
    and every failure carries one of the fixed messages. *)
Theorem account_routes_answer (rb : register_body) (lb : login_body) (d : db) :
  (exists answer,
      fst (register bcrypt_hash rb d) = Returned answer /\
      (success answer = true <-> status answer = 201%Z) /\
      In (status answer) [201; 400; 409; 500]%Z /\
      (forall m, payload answer = Failure m -> In m account_messages)) /\
  (exists answer,
      fst (login bcrypt_compare lb d) = Returned answer /\
      (success answer = true <-> status answer = 200%Z) /\
      In (status answer) [200; 400; 401; 500]%Z /\
      (forall m, payload answer = Failure m -> In m account_messages)).
Proof.
  split.
  - destruct (register_cases rb d) as [(m & Hm & ->) | [-> | [-> | [_ ->]]]];
      eexists; (split; [reflexivity |]); simpl; repeat split;
      try discriminate; auto 10.
    + intros m' [= <-]. exact Hm.
    + intros m' [= <-]. simpl. auto 10.
    + intros m' [= <-]. simpl. auto 10.
  - destruct (login_cases lb d)
      as [-> | (answer & -> & _ & _
                & [[_ ->] | [(_ & _ & ->) | (_ & u & us & _ & _ & ->)]])];
      eexists; (split; [reflexivity |]); simpl; repeat split;
      try discriminate; auto 10.
    + intros m' [= <-]. simpl. auto 10.
    + intros m' [= <-]. simpl. auto 10.
    + intros m' [= <-]. simpl. auto 10.
Qed.

End AccountsMore.

(** *** The further account theorems at concrete requests *)

Section AccountsMoreRuns.

Import JS Spec Props Auth.

Lemma store_well_formed : well_formed Samples.store.
Proof.
  repeat split; simpl.
  - repeat constructor. intros [].
  - repeat constructor. intros [].
  - repeat constructor.
Defined.

Lemma register_keeps_well_formed_witness :
  well_formed (snd (register Samples.toy_hash Samples.bob_request Samples.store)).
Proof.
  exact (register_keeps_well_formed Samples.toy_hash Samples.bob_request
           Samples.store store_well_formed).
Defined.

Lemma register_then_login_witness :
  fst (register Samples.toy_hash Samples.bob_request Samples.store)
  = Returned {| status := 201;
                payload := Success (Registered "User registered successfully" 2) |} /\
  fst (login Samples.toy_compare
         {| l_email := Some "bob@example.com"; l_password := Some "hunter22" |}
         (snd (register Samples.toy_hash Samples.bob_request Samples.store)))
  = Returned {| status := 200;
                payload :=
                  Success (LoggedIn "Login successful"
                             {| pu_id := 2; pu_username := "bob";
                                pu_email := "bob@example.com";
                                pu_phone := Some "555-0100" |}) |}.
Proof.
  exact (register_then_login Samples.toy_hash Samples.toy_compare
           Samples.bob_request Samples.store bob_request_valid
           eq_refl eq_refl bob_request_fits eq_refl).
Defined.

Lemma register_twice_conflicts_witness :
  fst (register Samples.toy_hash Samples.bob_request Samples.store)
  = Returned {| status := 201;
                payload := Success (Registered "User registered successfully" 2) |} /\
  fst (register Samples.toy_hash Samples.bob_request
         (snd (register Samples.toy_hash Samples.bob_request Samples.store)))
  = Returned {| status := 409; payload := Failure "Email already registered" |} /\
  rows (snd (register Samples.toy_hash Samples.bob_request
               (snd (register Samples.toy_hash Samples.bob_request Samples.store))))
  = rows (snd (register Samples.toy_hash Samples.bob_request Samples.store)).
Proof.
  exact (register_twice_conflicts Samples.toy_hash Samples.bob_request
           Samples.bob_request Samples.store bob_request_valid bob_request_valid
           eq_refl eq_refl eq_refl bob_request_fits).
Defined.

Lemma login_succeeds_iff_witness :
  exists answer,
    fst (login Samples.toy_compare Samples.wrong_password_login Samples.store)
    = Returned answer /\
    (success answer = true <->
     exists user others,
       by_email "alice@example.com" Samples.store = user :: others /\
       Samples.toy_compare "looking-glass" (u_password user) = true) /\
    (forall user others,
       by_email "alice@example.com" Samples.store = user :: others ->
       Samples.toy_compare "looking-glass" (u_password user) = true ->
       answer = {| status := 200;
                   payload := Success (LoggedIn "Login successful"
                                         (without_password user)) |}) /\
    (success answer = false ->
     answer = {| status := 401; payload := Failure "Invalid email or password" |}).
Proof.
  exact (login_succeeds_iff Samples.toy_compare Samples.wrong_password_login
           Samples.store (provided_literal _ _) (provided_literal _ _) eq_refl).
Defined.

Lemma accounts_store_unreachable_witness :
  register Samples.toy_hash Samples.bob_request Samples.unreachable_store
  = (Returned {| status := 500;
                 payload := Failure "Internal server error during registration" |},
     issue (SelectIdByEmail "bob@example.com") Samples.unreachable_store) /\
  login Samples.toy_compare Samples.unknown_login Samples.unreachable_store
  = (Returned {| status := 500;
                 payload := Failure "Internal server error during login" |},
     issue (SelectUserByEmail "nobody@example.com") Samples.unreachable_store).
Proof.
  destruct (accounts_store_unreachable Samples.toy_hash Samples.toy_compare
              Samples.unreachable_store eq_refl) as [Hregister Hlogin].
  exact (conj (Hregister Samples.bob_request bob_request_valid)
              (Hlogin Samples.unknown_login (provided_literal _ _)
                 (provided_literal _ _))).
Defined.

End AccountsMoreRuns.

(* ===================================================================== *)
(** ** The email pattern *)
(* ===================================================================== *)

Section RegexFacts.

Import JS Props.

Lemma append_nil_r (s : string) : s ++ "" = s.
Proof. induction s; simpl; [reflexivity | rewrite IHs; reflexivity]. Qed.

Lemma append_assoc (s1 s2 s3 : string) : (s1 ++ s2) ++ s3 = s1 ++ (s2 ++ s3).
Proof. induction s1; simpl; [reflexivity | rewrite IHs1; reflexivity]. Qed.

Lemma append_eq_nil (s1 s2 : string) : s1 ++ s2 = "" -> s1 = "" /\ s2 = "".
Proof. destruct s1; simpl; [auto | discriminate]. Qed.

Lemma matches_seq_inv r1 r2 s :
  matches (Seq r1 r2) s ->
  exists s1 s2, s = s1 ++ s2 /\ matches r1 s1 /\ matches r2 s2.
Proof. intros H. inversion H; subst. eauto. Qed.

Lemma matches_class_inv p s :
  matches (Class p) s -> exists c, s = String c "" /\ p c = true.
Proof. intros H. inversion H; subst. eauto. Qed.

Lemma nullable_matches r : nullable r = true <-> matches r "".
Proof.
  split.
  - induction r; simpl; intros H; try discriminate.
    + constructor.
    + apply andb_prop in H as [H1 H2]. change "" with ("" ++ "").
      constructor; auto.
    + apply orb_prop in H as [H | H]; [apply MAltL | apply MAltR]; auto.
    + constructor.
  - intros H. remember "" as s eqn:E. induction H; simpl; try reflexivity.
    + discriminate.
    + apply append_eq_nil in E as [-> ->]. rewrite IHmatches1, IHmatches2; auto.
    + rewrite IHmatches; auto.
    + rewrite IHmatches; auto. apply orb_true_r.
Qed.

Lemma deriv_sound c r : forall s, matches (deriv c r) s -> matches r (String c s).
Proof.
  induction r; simpl; intros s H.
  - inversion H.
  - inversion H.
  - destruct (p c) eqn:E; inversion H; subst. constructor. exact E.
  - destruct (nullable r1) eqn:E.
    + inversion H; subst.
      * apply matches_seq_inv in H3 as (s1 & s2 & -> & H1 & H2).
        change (String c (s1 ++ s2)) with (String c s1 ++ s2).
        constructor; auto.
      * change (String c s) with ("" ++ String c s).
        constructor; [apply nullable_matches; exact E | auto].
    + apply matches_seq_inv in H as (s1 & s2 & -> & H1 & H2).
      change (String c (s1 ++ s2)) with (String c s1 ++ s2).
      constructor; auto.
  - inversion H; subst; [apply MAltL | apply MAltR]; auto.
  - apply matches_seq_inv in H as (s1 & s2 & -> & H1 & H2).
    change (String c (s1 ++ s2)) with (String c s1 ++ s2).
    constructor; auto.
Qed.

Lemma deriv_complete r s0 :
  matches r s0 -> forall c t, s0 = String c t -> matches (deriv c r) t.
Proof.
  induction 1; intros c0 t E; simpl.
  - discriminate.
  - injection E as -> <-. rewrite H. constructor.
  - destruct s1 as [|c1 s1'].
    + simpl in E. subst s2.
      assert (Hn : nullable r1 = true) by (apply nullable_matches; assumption).
      rewrite Hn. apply MAltR. apply IHmatches2. reflexivity.
    + simpl in E. injection E as -> <-.
      assert (Hd : matches (Seq (deriv c0 r1) r2) (s1' ++ s2))
        by (constructor; [apply IHmatches1; reflexivity | assumption]).
      destruct (nullable r1); [apply MAltL |]; exact Hd.
  - apply MAltL. apply IHmatches. exact E.
  - apply MAltR. apply IHmatches. exact E.
  - discriminate.
  - destruct s1 as [|c1 s1'].
    + simpl in E. apply IHmatches2 in E. exact E.
    + simpl in E. injection E as -> <-.
      constructor; [apply IHmatches1; reflexivity | assumption].
Qed.

(** Matching by derivatives decides the language of the expression. *)
Lemma full_match_matches s : forall r, full_match r s = true <-> matches r s.
Proof.
  induction s as [|c s IH]; intros r; simpl.
  - apply nullable_matches.
  - rewrite IH. split.
    + apply deriv_sound.
    + intros H. eapply deriv_complete; [exact H | reflexivity].
Qed.

Lemma star_class_matches p s :
  matches (Star (Class p)) s <-> all_chars p s = true.
Proof.
  split.
  - intros H. remember (Star (Class p)) as r eqn:E.
    induction H; try discriminate; [reflexivity |].
    injection E as ->. apply matches_class_inv in H as (c & -> & Hc).
    simpl. rewrite Hc. apply IHmatches2. reflexivity.
  - induction s as [|c s IH]; simpl; intros H.
    + constructor.
    + apply andb_prop in H as [Hc Hs].
      change (String c s) with (String c "" ++ s).
      constructor; [constructor; exact Hc | auto].
Qed.

Lemma plus_class_matches p s :
  matches (Plus (Class p)) s <-> s <> "" /\ all_chars p s = true.
Proof.
  unfold Plus. split.
  - intros H. apply matches_seq_inv in H as (s1 & s2 & -> & H1 & H2).
    apply matches_class_inv in H1 as (c & -> & Hc).
    apply star_class_matches in H2. simpl. rewrite Hc, H2.
    split; [discriminate | reflexivity].
  - intros [Hne H]. destruct s as [|c s]; [congruence |].
    simpl in H. apply andb_prop in H as [Hc Hs].
    change (String c s) with (String c "" ++ s).
    constructor; [constructor; exact Hc | apply star_class_matches; exact Hs].
Qed.

Lemma class_char_matches (a : ascii) s :
  matches (Class (Ascii.eqb a)) s <-> s = String a "".
Proof.
  split.
  - intros H. apply matches_class_inv in H as (c & -> & Hc).
    apply Ascii.eqb_eq in Hc. subst. reflexivity.
  - intros ->. constructor. apply Ascii.eqb_refl.
Qed.

(** X20. The pattern of the registration route accepts exactly the strings of
    the shape local@domain.tld: three non-empty runs without white space
    and without an at sign, with an at sign after the first and a dot
    before the last. *)
Theorem emailRegex_test_shape (s : string) :
  Auth.emailRegex_test s = true <-> email_shape s.
Proof.
  unfold Auth.emailRegex_test, Auth.emailRegex, email_shape, label.
  rewrite full_match_matches. split.
  - intros H.
    apply matches_seq_inv in H as (l & s1 & -> & Hl & H).
    apply matches_seq_inv in H as (a & s2 & -> & Ha & H).
    apply matches_seq_inv in H as (d & s3 & -> & Hd & H).
    apply matches_seq_inv in H as (o & t & -> & Ho & Ht).
    apply class_char_matches in Ha, Ho. subst a o.
    apply plus_class_matches in Hl, Hd, Ht.
    exists l, d, t. auto.
  - intros (l & d & t & -> & Hl & Hd & Ht).
    constructor; [apply plus_class_matches; exact Hl |].
    constructor; [apply class_char_matches; reflexivity |].
    constructor; [apply plus_class_matches; exact Hd |].
    constructor; [apply class_char_matches; reflexivity |].
    apply plus_class_matches; exact Ht.
Qed.

(** The client checks emails with the same pattern as the server. *)
Lemma validateEmail_is_server_check s :
  Client.validateEmail s = Auth.emailRegex_test s.
Proof. reflexivity. Qed.

End RegexFacts.

(* ===================================================================== *)
(** ** The normalizer on well-formed numbers *)
(* ===================================================================== *)

Section NumberFacts.

Import JS Spec Props Movies.

Lemma read_digits_uint_app d r :
  read_digits 10 (NilEmpty.string_of_uint d ++ r)
  = (uint_digits d ++ fst (read_digits 10 r), snd (read_digits 10 r))%list.
Proof.
  induction d;
    [simpl; destruct (read_digits 10 r); reflexivity | ..];
    cbn [NilEmpty.string_of_uint uint_digits read_digits append];
    change (digit_of 10 "0") with (Some 0%N);
    change (digit_of 10 "1") with (Some 1%N);
    change (digit_of 10 "2") with (Some 2%N);
    change (digit_of 10 "3") with (Some 3%N);
    change (digit_of 10 "4") with (Some 4%N);
    change (digit_of 10 "5") with (Some 5%N);
    change (digit_of 10 "6") with (Some 6%N);
    change (digit_of 10 "7") with (Some 7%N);
    change (digit_of 10 "8") with (Some 8%N);
    change (digit_of 10 "9") with (Some 9%N);
    cbv iota; rewrite IHd; reflexivity.
Qed.

Lemma fold_digits_acc (l : list N) (acc : N) :
  fold_left (fun a k => a * 10 + k)%N l acc
  = (acc * 10 ^ N.of_nat (List.length l)
     + fold_left (fun a k => a * 10 + k)%N l 0)%N.
Proof.
  revert acc. induction l as [|k l IH]; intros acc.
  - simpl. lia.
  - cbn [fold_left List.length]. rewrite IH, (IH (0 * 10 + k)%N).
    rewrite Nat2N.inj_succ, N.pow_succ_r'. lia.
Qed.

Lemma digits_value_app (l1 l2 : list N) :
  digits_value 10 (l1 ++ l2)
  = (digits_value 10 l1 * 10 ^ N.of_nat (List.length l2) + digits_value 10 l2)%N.
Proof. unfold digits_value. rewrite fold_left_app. apply fold_digits_acc. Qed.

Lemma uint_digits_length d : List.length (uint_digits d) = Decimal.nb_digits d.
Proof. induction d; simpl; congruence. Qed.

Lemma numeral_prefix_facts d r :
  d <> Decimal.Nil ->
  skip_ws (NilEmpty.string_of_uint d ++ r) = NilEmpty.string_of_uint d ++ r /\
  read_sign (NilEmpty.string_of_uint d ++ r)
  = (false, NilEmpty.string_of_uint d ++ r) /\
  strip_prefix "Infinity" (NilEmpty.string_of_uint d ++ r) = None /\
  present (Some (NilEmpty.string_of_uint d ++ r)) = true.
Proof. destruct d; [congruence | repeat split ..]. Qed.

(** [parseFloat] of a decimal with a fraction is its exact value. *)
Lemma parseFloat_decimal_fraction a f :
  parseFloat (decimal a ++ "." ++ NilEmpty.string_of_uint f)
  = Dec (Z.of_N (a * 10 ^ N.of_nat (Decimal.nb_digits f) + N.of_uint f))
        (- Z.of_nat (Decimal.nb_digits f)).
Proof.
  rewrite decimal_unfold.
  destruct (numeral_prefix_facts (N.to_uint a)
              ("." ++ NilEmpty.string_of_uint f) (to_uint_nonnil a))
    as (Hws & Hsign & Hinf & _).
  unfold parseFloat, read_decimal, read_unsigned_decimal.
  rewrite Hws, Hsign, Hinf, read_digits_uint_app.
  cbn [append read_digits digit_of fst snd].
  change (digit_of 10 ".") with (@None N). cbv iota. cbn [fst snd].
  rewrite app_nil_r, read_digits_uint.
  pose proof (uint_digits_nonnil _ (to_uint_nonnil a)) as Hne.
  destruct (uint_digits (N.to_uint a)) as [|k ks] eqn:E; [congruence |].
  cbn [read_exponent]. rewrite <- E.
  rewrite digits_value_app, digits_value_decimal, digits_value_uint,
    uint_digits_length.
  destruct (uint_digits (N.to_uint a)); [congruence |].
  rewrite Z.sub_0_l. reflexivity.
Qed.

(** X21. A rating written as a decimal with a fraction and at most fifteen
    significant digits, such as 8.8, comes out as the number written:
    with so few digits the double the engine rounds to and the decimal
    of the model name each other. *)
Theorem formatMovie_rating_decimal (m : omdb_data) (a : N) (f : Decimal.uint) :
  fifteen_digits (a * 10 ^ N.of_nat (Decimal.nb_digits f) + N.of_uint f) ->
  imdbRating m = Some (decimal a ++ "." ++ NilEmpty.string_of_uint f) ->
  rating (formatMovie m)
  = Some (Dec (Z.of_N (a * 10 ^ N.of_nat (Decimal.nb_digits f) + N.of_uint f))
              (- Z.of_nat (Decimal.nb_digits f))).
Proof.
  intros Hdigits H. simpl. rewrite H. cbn [ToString].
  rewrite parseFloat_decimal_fraction.
  rewrite decimal_unfold.
  destruct (numeral_prefix_facts (N.to_uint a)
              ("." ++ NilEmpty.string_of_uint f) (to_uint_nonnil a))
    as (_ & _ & _ & ->).
  reflexivity.
Qed.

(** X22. A vote count written with thousands separators, wherever the commas
    stand, comes out as the number its digits denote, when that is a
    safe integer. *)
Theorem formatMovie_voteCount_grouped (m : omdb_data) (s : string) (n : N) :
  (n <= MAX_SAFE_INTEGER)%N ->
  imdbVotes m = Some s ->
  remove_commas s = decimal n ->
  voteCount (formatMovie m) = Some (Dec (Z.of_N n) 0).
Proof.
  intros Hsafe Hs Hn. simpl. rewrite Hs. cbn [ToString].
  assert (Ht : truthy (Some s) = true).
  { destruct s; [| reflexivity]. simpl in Hn.
    pose proof (decimal_truthy n) as Hd. rewrite <- Hn in Hd. discriminate. }
  rewrite Ht, Hn, parseInt_decimal. reflexivity.
Qed.

End NumberFacts.

Section NumberRuns.

Import JS Spec Props Movies.

Lemma formatMovie_rating_decimal_witness :
  rating (formatMovie Samples.inception) = Some (Dec 88 (-1)).
Proof.
  exact (formatMovie_rating_decimal Samples.inception 8
           (Decimal.D8 Decimal.Nil) eq_refl eq_refl).
Defined.

Lemma formatMovie_voteCount_grouped_witness :
  voteCount (formatMovie Samples.inception) = Some (Dec 2345678 0).
Proof.
  assert (Hsafe : (2345678 <= MAX_SAFE_INTEGER)%N) by discriminate.
  exact (formatMovie_voteCount_grouped Samples.inception "2,345,678" 2345678
           Hsafe eq_refl eq_refl).
Defined.

End NumberRuns.

(* ===================================================================== *)
(** ** The client forms against the account routes *)
(* ===================================================================== *)

Section ClientFacts.

Import JS Spec Props Auth.

Variable bcrypt_hash : string -> Z -> string.
Variable bcrypt_compare : string -> string -> bool.

Lemma emailRegex_test_nonempty s : emailRegex_test s = true -> s <> "".
Proof. intros H ->. discriminate. Qed.

(** A registration that passes the local checks is answered with 201,
    409 or 500. *)
Lemma register_valid_answers (b : register_body) (d : db) :
  passes_validation b ->
  exists answer,
    fst (register bcrypt_hash b d) = Returned answer /\
    In (status answer) [201; 409; 500]%Z.
Proof.
  intros Hv. destruct (online d) eqn:Hon.
  - destruct (by_email (ToString (r_email b)) d) as [|u us] eqn:Hrows.
    + rewrite (register_created_run bcrypt_hash b d Hv Hon Hrows).
      eexists. split; [reflexivity |]. simpl. auto.
    + rewrite (register_conflict_run bcrypt_hash b d Hv Hon).
      * eexists. split; [reflexivity |]. simpl. auto.
      * rewrite Hrows. discriminate.
  - rewrite (register_offline_run bcrypt_hash b d Hv Hon).
    eexists. split; [reflexivity |]. simpl. auto.
Qed.

(** A login that gives both fields is answered with 200, 401 or 500. *)
Lemma login_provided_answers (b : login_body) (d : db) :
  provided (l_email b) -> provided (l_password b) ->
  exists answer,
    fst (login bcrypt_compare b d) = Returned answer /\
    In (status answer) [200; 401; 500]%Z.
Proof.
  intros He Hp. unfold login, Eff.try_catch, Eff.bind.
  rewrite (truthy_provided _ He), (truthy_provided _ Hp). cbn [negb orb].
  cbv beta iota. unfold select_user_by_email.
  destruct (online d).
  - destruct (by_email (ToString (l_email b)) d) as [|user others].
    + eexists. split; [reflexivity |]. simpl. auto.
    + destruct (bcrypt_compare (ToString (l_password b)) (u_password user));
        eexists; (split; [reflexivity |]); simpl; auto.
  - eexists. split; [reflexivity |]. simpl. auto.
Qed.

(** X23. Whatever the signup form posts passes the local checks of the
    registration route: the body carries the trimmed username, email and
    phone and the password as typed, and the route answers it with 201,
    409 or 500, never with 400. *)
Theorem signup_form_passes_server_checks (f : Client.signup_form)
    (body : register_body) :
  Client.signup_submit f = Client.Post body ->
  body = {| r_username := Some (Client.trim (Client.f_username f));
            r_email := Some (Client.trim (Client.f_email f));
            r_password := Some (Client.f_password f);
            r_phone := Some (Client.trim (Client.f_phone f)) |} /\
  passes_validation body /\
  forall d, exists answer,
      fst (register bcrypt_hash body d) = Returned answer /\
      In (status answer) [201; 409; 500]%Z.
Proof.
  unfold Client.signup_submit. intros H.
  destruct (String.length (Client.trim (Client.f_username f)) <? 3)%nat eqn:Hu;
    [discriminate |].
  destruct (Client.validateEmail (Client.trim (Client.f_email f))) eqn:He;
    [| discriminate].
  destruct (String.length (Client.f_password f) <? 6)%nat eqn:Hp;
    [discriminate |].
  simpl in H. injection H as <-.
  assert (Hv : passes_validation
                 {| r_username := Some (Client.trim (Client.f_username f));
                    r_email := Some (Client.trim (Client.f_email f));
                    r_password := Some (Client.f_password f);
                    r_phone := Some (Client.trim (Client.f_phone f)) |}).
  { apply Nat.ltb_ge in Hu, Hp.
    exists (Client.trim (Client.f_username f)),
           (Client.trim (Client.f_email f)), (Client.f_password f).
    simpl. repeat split; try assumption.
    - intros E. rewrite E in Hu. simpl in Hu. lia.
    - apply emailRegex_test_nonempty. exact He. }
  split; [reflexivity |]. split; [exact Hv |].
  intros d. apply register_valid_answers. exact Hv.
Qed.

(** X24. Whatever the login form posts gives both fields to the login route,
    which answers it with 200, 401 or 500, never with 400. The form
    refuses passwords of fewer than six characters before any request. *)
Theorem login_form_passes_server_checks (f : Client.login_form)
    (body : login_body) :
  Client.login_submit f = Client.Post body ->
  body = {| l_email := Some (Client.trim (Client.g_email f));
            l_password := Some (Client.g_password f) |} /\
  (6 <= String.length (Client.g_password f))%nat /\
  forall d, exists answer,
      fst (login bcrypt_compare body d) = Returned answer /\
      In (status answer) [200; 401; 500]%Z.
Proof.
  unfold Client.login_submit. intros H.
  destruct (Client.validateEmail (Client.trim (Client.g_email f))) eqn:He;
    [| discriminate].
  destruct (String.length (Client.g_password f) <? 6)%nat eqn:Hp;
    [discriminate |].
  simpl in H. injection H as <-. apply Nat.ltb_ge in Hp.
  split; [reflexivity |]. split; [exact Hp |].
  intros d. apply login_provided_answers; simpl.
  - exists (Client.trim (Client.g_email f)). split; [reflexivity |].
    apply emailRegex_test_nonempty. exact He.
  - exists (Client.g_password f). split; [reflexivity |].
    intros E. rewrite E in Hp. simpl in Hp. lia.
Qed.

(** X25. The retry loop of the start page checks the health of the server at
    most three times and waits at most twice. It stops at the first
    check that succeeds: every check before the last one made failed,
    the flag is the result of the last check, and it is set exactly when
    one of the first three checks succeeds. A wait follows every failed
    check but the third. *)
Theorem initApp_health_bounded (checkHealth : nat -> bool) :
  (1 <= Client.checks (Client.initApp_health checkHealth) <= 3)%nat /\
  Client.isHealthy (Client.initApp_health checkHealth)
  = checkHealth (Client.checks (Client.initApp_health checkHealth) - 1)%nat /\
  (forall k, (k < Client.checks (Client.initApp_health checkHealth) - 1)%nat ->
             checkHealth k = false) /\
  Client.isHealthy (Client.initApp_health checkHealth)
  = checkHealth 0%nat || checkHealth 1%nat || checkHealth 2%nat /\
  Client.waits (Client.initApp_health checkHealth)
  = (if Client.isHealthy (Client.initApp_health checkHealth)
     then Client.checks (Client.initApp_health checkHealth) - 1 else 2)%nat.
Proof.
  unfold Client.initApp_health. simpl.
  destruct (checkHealth 0%nat) eqn:H0; simpl;
    [| destruct (checkHealth 1%nat) eqn:H1; simpl;
       [| destruct (checkHealth 2%nat) eqn:H2; simpl]];
    repeat split; auto; try lia;
    intros k Hk; destruct k as [|[|k]]; try assumption; lia.
Qed.

End ClientFacts.

Section ClientRuns.

Import JS Spec Props Auth.

Lemma signup_form_passes_server_checks_witness :
  passes_validation
    {| r_username := Some "bob"; r_email := Some "bob@example.com";
       r_password := Some "hunter22"; r_phone := Some "" |}.
Proof.
  exact (proj1 (proj2 (signup_form_passes_server_checks Samples.toy_hash
                          Cases.signup _ eq_refl))).
Defined.

Lemma login_form_passes_server_checks_witness :
  exists answer,
    fst (login Samples.toy_compare
           {| l_email := Some "alice@example.com";
              l_password := Some "wonderland" |} Samples.store)
    = Returned answer /\
    In (status answer) [200; 401; 500]%Z.
Proof.
  exact (proj2 (proj2 (login_form_passes_server_checks Samples.toy_compare
                          Cases.signin _ eq_refl)) Samples.store).
Defined.

End ClientRuns.

(* ===================================================================== *)
(** ** The client request helper against the routes *)
(* ===================================================================== *)

Section ClientServer.

Import JS Spec Props.

Variable bcrypt_hash : string -> Z -> string.
Variable bcrypt_compare : string -> string -> bool.
Variable key : option string.
Variable axios_get : Movies.calls -> Movies.params -> Movies.axios_result.

Lemma includes_nonempty needle haystack :
  needle <> "" -> Client.includes needle haystack = true -> haystack <> "".
Proof. intros Hn H ->. destruct needle; [congruence | discriminate]. Qed.

Lemma json_header_truthy ct :
  Client.includes "application/json" ct = true -> truthy (Some ct) = true.
Proof.
  intros H. apply truthy_some. eapply includes_nonempty; [| exact H].
  discriminate.
Qed.

(** What [apiRequest] makes of a failure with a fixed message and a
    status outside the 2xx range. *)
Lemma apiRequest_failure {P} (message_of : P -> option string) ct code m :
  Client.includes "application/json" ct = true ->
  In code [400; 401; 409; 500]%Z ->
  In m account_messages \/ In m catalog_messages ->
  Client.apiRequest message_of
    (Client.Responded (Some ct) {| status := code; payload := Failure m |})
  = Thrown m.
Proof.
  intros Hct Hcode Hm. unfold Client.apiRequest.
  rewrite (json_header_truthy ct Hct). cbn [ToString negb orb]. rewrite Hct.
  cbn [negb]. cbv iota.
  assert (Hok : Client.ok {| status := code; payload := @Failure P m |} = false).
  { unfold Client.ok. simpl in *.
    destruct Hcode as [<- | [<- | [<- | [<- | []]]]]; reflexivity. }
  rewrite Hok. cbn [negb]. cbv iota. cbn [payload Client.data_message ToString].
  destruct Hm as [Hm | Hm]; simpl in Hm;
    repeat (destruct Hm as [<- | Hm]; [reflexivity |]); destruct Hm.
Qed.

Lemma apiRequest_success {P} (message_of : P -> option string) ct code p :
  Client.includes "application/json" ct = true ->
  In code [200; 201]%Z ->
  Client.apiRequest message_of
    (Client.Responded (Some ct) {| status := code; payload := Success p |})
  = Returned (Success p).
Proof.
  intros Hct Hcode. unfold Client.apiRequest.
  rewrite (json_header_truthy ct Hct). cbn [ToString negb orb]. rewrite Hct.
  cbn [negb]. cbv iota.
  simpl in Hcode. destruct Hcode as [<- | [<- | []]]; reflexivity.
Qed.

(** X26. Through [apiRequest], the answer of an account route delivered as
    JSON reaches the page as follows: a success resolves to the body as
    sent, and a failure is thrown with exactly the message the route
    sent. The request helper never resolves to a body whose success flag
    is false. *)
Theorem apiRequest_account_answer (rb : Auth.register_body)
    (lb : Auth.login_body) (d : Auth.db) (ct : string) :
  Client.includes "application/json" ct = true ->
  (exists answer,
      fst (Auth.register bcrypt_hash rb d) = Returned answer /\
      Client.apiRequest Client.account_message (Client.Responded (Some ct) answer)
      = match payload answer with
        | Failure m => Thrown m
        | Success p => Returned (Success p)
        end) /\
  (exists answer,
      fst (Auth.login bcrypt_compare lb d) = Returned answer /\
      Client.apiRequest Client.account_message (Client.Responded (Some ct) answer)
      = match payload answer with
        | Failure m => Thrown m
        | Success p => Returned (Success p)
        end).
Proof.
  intros Hct. split.
  - destruct (register_cases bcrypt_hash rb d)
      as [(m & Hm & ->) | [-> | [-> | [_ ->]]]];
      eexists; (split; [reflexivity |]); cbn [fst payload].
    + apply apiRequest_failure; simpl; auto.
    + apply apiRequest_failure; simpl; auto 10.
    + apply apiRequest_failure; simpl; auto 10.
    + apply apiRequest_success; simpl; auto.
  - destruct (login_cases bcrypt_compare lb d)
      as [-> | (answer & -> & _ & _
                & [[_ ->] | [(_ & _ & ->) | (_ & u & us & _ & _ & ->)]])];
      eexists; (split; [reflexivity |]); cbn [fst payload].
    + apply apiRequest_failure; simpl; auto 10.
    + apply apiRequest_failure; simpl; auto 15.
    + apply apiRequest_failure; simpl; auto 15.
    + apply apiRequest_success; simpl; auto.
Qed.


(** A response that is not announced as JSON is refused whatever its
    status and body. *)
Lemma apiRequest_no_json {P} (message_of : P -> option string)
    (ct : option string) (r : response P) :
  ct = None \/ (exists c, ct = Some c /\ Client.includes "application/json" c = false) ->
  Client.apiRequest message_of (Client.Responded ct r)
  = Thrown "Server returned non-JSON response. Is the backend running?".
Proof.
  intros [-> | (c & -> & Hc)]; unfold Client.apiRequest.
  - reflexivity.
  - cbn [ToString]. rewrite Hc. cbn [negb]. rewrite orb_true_r. reflexivity.
Qed.

End ClientServer.

Section ClientServerRuns.

Import JS Spec Props.

Lemma apiRequest_account_answer_witness :
  exists answer,
    fst (Auth.login Samples.toy_compare Samples.wrong_password_login Samples.store)
    = Returned answer /\
    Client.apiRequest Client.account_message
      (Client.Responded (Some "application/json; charset=utf-8") answer)
    = match payload answer with
      | Failure m => Thrown m
      | Success p => Returned (Success p)
      end.
Proof.
  exact (proj2 (apiRequest_account_answer Samples.toy_hash Samples.toy_compare
                  Samples.bob_request Samples.wrong_password_login Samples.store
                  "application/json; charset=utf-8" eq_refl)).
Defined.


End ClientServerRuns.

(* ===================================================================== *)
(** ** The login route on credentials that are not strings *)
(* ===================================================================== *)

Section LoginJson.

Import JS Spec Props Auth AuthJson.

Variable bcrypt_compare : string -> string -> bool.
Variable select_other : json -> Eff.M db (list user_row).

(** On a body whose fields are strings or absent, the route is the one
    the account theorems above are about. *)
Lemma login_json_of_strings (b : login_body) (d : db) :
  login_json bcrypt_compare select_other (of_strings b) d
  = login bcrypt_compare b d.
Proof.
  unfold login_json, login, of_strings, Eff.try_catch.
  destruct (l_email b) as [[|c e]|], (l_password b) as [[|c' p]|];
    reflexivity.
Qed.

(** A password that is given but is not a string, with an email that has
    no row: the lookup comes back empty and the answer is the 401. *)
Lemma login_json_unknown_email (e : string) (password : json) (d : db) :
  e <> "" ->
  truthy_json (Some password) = true ->
  online d = true ->
  by_email e d = [] ->
  fst (login_json bcrypt_compare select_other
         {| j_email := Some (JStr e); j_password := Some password |} d)
  = Returned {| status := 401; payload := Failure "Invalid email or password" |}.
Proof.
  intros He Hp Hon Hrows. unfold login_json, Eff.try_catch.
  cbn [j_email j_password]. rewrite Hp.
  cbn [truthy_json]. rewrite (truthy_some _ He). cbn [negb orb]. cbv iota.
  unfold Eff.bind, select_user_by, select_user_by_email.
  rewrite Hon, Hrows. reflexivity.
Qed.

(** The same password with an email that has a row: [bcrypt.compare]
    rejects, and the answer is the 500. *)
Lemma login_json_known_email (e : string) (password : json) (d : db)
    user others :
  e <> "" ->
  truthy_json (Some password) = true ->
  (forall s, password <> JStr s) ->
  online d = true ->
  by_email e d = user :: others ->
  fst (login_json bcrypt_compare select_other
         {| j_email := Some (JStr e); j_password := Some password |} d)
  = Returned {| status := 500;
                payload := Failure "Internal server error during login" |}.
Proof.
  intros He Hp Hns Hon Hrows. unfold login_json, Eff.try_catch.
  cbn [j_email j_password]. rewrite Hp.
  cbn [truthy_json]. rewrite (truthy_some _ He). cbn [negb orb]. cbv iota.
  unfold Eff.bind, select_user_by, select_user_by_email.
  rewrite Hon, Hrows. unfold compare.
  destruct password; try reflexivity. exfalso. eapply Hns. reflexivity.
Qed.

(** C3 at the input where it fails. Two logins with the JSON number
    12345 as the password, against the same store: for an email without
    a row the answer is 401, for the email of a row it is 500, because
    [bcrypt.compare] rejects a password that is not a string and the
    [catch] of the route answers. The two answers differ in status and
    in message, so they tell whether the email exists. *)
Theorem login_number_password_reveals_email :
  by_email "nobody@example.com" Samples.store = [] /\
  by_email "alice@example.com" Samples.store = [Samples.alice] /\
  fst (login_json Samples.toy_compare select_other
         Cases.number_password_unknown Samples.store)
  = Returned {| status := 401; payload := Failure "Invalid email or password" |} /\
  fst (login_json Samples.toy_compare select_other
         Cases.number_password_known Samples.store)
  = Returned {| status := 500;
                payload := Failure "Internal server error during login" |}.
Proof. repeat split. Qed.

End LoginJson.
